(** * Informatica metadata export and spreadsheet load: a shallow embedding

    The two scripts of the repository, [extract_from_idmc.py] (catalog
    export: login, job polling, download) and [load_excel.py] (type
    inference, table provisioning, input resolution), embedded as Rocq
    functions, with the properties their specification states.

    Conventions.
    - A Python [str] is a [string], one character per code point; code
      points above 255 are outside the model.
    - A Python [dict] is a [gmap]; a [set] is a [gset].
    - Code that raises returns a [result]; code that touches the database
      or the network runs in an explicit state-and-error monad that records
      every call of the driver in a log.
    - Console output ([print], [debug_print]) is not modelled. *)

From Stdlib Require Import ZArith QArith Ascii String.
From stdpp Require Import base strings gmap list.

Local Open Scope string_scope.
Local Open Scope list_scope.

(** ** Python preliminaries *)

(** The double quote character, as a one-character string. *)
Definition dquote : string := String "034"%char "".

(** A newline, and the indentation of the triple-quoted query strings. *)
Definition newline : string := String "010"%char "".
Definition spaces (n : nat) : string := string_of_list_ascii (replicate n " "%char).

(** [str.isspace] on one character: the white space among the code points
    below 256, which is what [str.strip()] removes. *)
Definition isspace (c : ascii) : bool :=
  let n := nat_of_ascii c in
  (Nat.leb 9 n && Nat.leb n 13) || (Nat.leb 28 n && Nat.leb n 32)
  || Nat.eqb n 133 || Nat.eqb n 160.

Fixpoint lstrip (s : string) : string :=
  match s with
  | String c s' => if isspace c then lstrip s' else s
  | EmptyString => EmptyString
  end.

Fixpoint rstrip (s : string) : string :=
  match s with
  | String c s' =>
      match rstrip s' with
      | EmptyString => if isspace c then EmptyString else String c EmptyString
      | r => String c r
      end
  | EmptyString => EmptyString
  end.

(** [s.strip()] *)
Definition strip (s : string) : string := rstrip (lstrip s).

(** [s.replace(old, new)]: the occurrences of [old] are found from left to
    right and do not overlap; [skip] counts the characters of an occurrence
    still to be passed over. An empty [old] matches before every character
    and at the end. *)
Fixpoint replace_from (old new s : string) (skip : nat) : string :=
  match s with
  | EmptyString => EmptyString
  | String c s' =>
      match skip with
      | S k => replace_from old new s' k
      | O =>
          if String.prefix old s
          then new +:+ replace_from old new s' (String.length old - 1)
          else String c (replace_from old new s' 0)
      end
  end.

Fixpoint intersperse_all (new s : string) : string :=
  match s with
  | EmptyString => new
  | String c s' => new +:+ String c (intersperse_all new s')
  end.

Definition replace (s old new : string) : string :=
  match old with
  | EmptyString => intersperse_all new s
  | _ => replace_from old new s 0
  end.

(** [sub in s] on strings. *)
Fixpoint str_contains (sub s : string) : bool :=
  String.prefix sub s ||
  match s with
  | EmptyString => false
  | String _ s' => str_contains sub s'
  end.

(** [f"{x}"] for an optional string: [None] prints as its name. *)
Definition format_opt (x : option string) : string :=
  match x with
  | Some s => s
  | None => "None"
  end.

(** Truth value of an optional string: [None] and the empty string are false. *)
Definition truthy_opt (x : option string) : bool :=
  match x with
  | Some s => negb (String.eqb s "")
  | None => false
  end.

(** [d.get(k, default)] on a dict. *)
Definition dict_get {V} (d : gmap string V) (k : string) (default : V) : V :=
  match d !! k with
  | Some v => v
  | None => default
  end.

(** IEEE-754 binary64 values are carried as their 64-bit patterns. *)
Definition float_exponent (bits : Z) : Z := Z.land (Z.shiftr bits 52) 2047.
Definition float_fraction (bits : Z) : Z := Z.land bits (Z.ones 52).
Definition float_is_nan (bits : Z) : bool :=
  (float_exponent bits =? 2047)%Z && negb (float_fraction bits =? 0)%Z.
Definition float_is_zero (bits : Z) : bool := (Z.land bits (Z.ones 63) =? 0)%Z.

(** ** JSON values

    What [response.json()] returns: [None], a bool, an int, a float, a
    [str], a [list] or a [dict] with string keys. *)
#[warnings="-register-all"]
Inductive json : Type :=
  | JNull
  | JBool (b : bool)
  | JInt (z : Z)
  | JFloat (bits : Z)
  | JStr (s : string)
  | JArr (items : list json)
  | JObj (fields : gmap string json).

(** Exceptions raised by the two scripts and by the libraries they call.
    [ExceptionAbout msg data] is an [Exception] whose message is [msg]
    followed by the printed form of [data]. *)
Inductive exn : Type :=
  | KeyError (key : string)
  | AttributeError (what : string)
  | IndexError
  | NotImplementedError (msg : string)
  | FileNotFoundError (msg : string)
  | HTTPError (status_code : Z)
  | JSONDecodeError
  | ConnectionError
  | ExcelReadError (path : string)
  | DriverError (msg : string)
  | ValueError (msg : string)
  | Exception (msg : string)
  | ExceptionAbout (msg : string) (data : json).

Inductive result (A : Type) : Type :=
  | Ok (a : A)
  | Raise (e : exn).
Arguments Ok {A} a.
Arguments Raise {A} e.

(** The truth value Python gives a value in [if x] and [not x]. *)
Definition truthy (x : json) : bool :=
  match x with
  | JNull => false
  | JBool b => b
  | JInt z => negb (z =? 0)%Z
  | JFloat bits => negb (float_is_zero bits)
  | JStr s => negb (String.eqb s "")
  | JArr items => match items with [] => false | _ => true end
  | JObj fields => negb (bool_decide (size fields = 0))
  end.

(** [data.get(key)]: the value under [key], [None] when the key is absent;
    only a dict has the method. *)
Definition py_get (data : json) (key : string) : result json :=
  match data with
  | JObj fields =>
      match fields !! key with
      | Some v => Ok v
      | None => Ok JNull
      end
  | _ => Raise (AttributeError "get")
  end.

(** ** The state-and-error monad

    A computation over a world [W] returns a value or raises, and in either
    case leaves a world behind: what was done before an exception stays
    done. *)
Definition M (W A : Type) : Type := W -> result A * W.

Definition ret {W A} (a : A) : M W A := fun w => (Ok a, w).
Definition raise {W A} (e : exn) : M W A := fun w => (Raise e, w).
Definition bind {W A B} (m : M W A) (k : A -> M W B) : M W B :=
  fun w =>
    match m w with
    | (Ok a, w') => k a w'
    | (Raise e, w') => (Raise e, w')
    end.
Definition lift {W A} (r : result A) : M W A := fun w => (r, w).

Notation "x <- m ;; k" := (bind m (fun x => k))
  (at level 100, m at next level, right associativity).
Notation "m ;;; k" := (bind m (fun _ => k))
  (at level 100, right associativity).

(** [for x in xs: acc = body(acc, x)], stopping at the first exception. *)
Fixpoint for_each {W A S} (body : S -> A -> M W S) (xs : list A) (acc : S) : M W S :=
  match xs with
  | [] => ret acc
  | x :: xs' => acc' <- body acc x ;; for_each body xs' acc'
  end.

(** ** pandas columns *)

(** One cell of a column. [CNone], [CNaT] and a NaN float are the missing
    values [pd.isnull] recognises. *)
Inductive cell : Type :=
  | CInt (z : Z)
  | CFloat (bits : Z)
  | CStr (s : string)
  | CTimestamp (ns : Z)
  | CBool (b : bool)
  | CNone
  | CNaT.

Definition pd_isnull (x : cell) : bool :=
  match x with
  | CNone | CNaT => true
  | CFloat bits => float_is_nan bits
  | _ => false
  end.

(** A [pd.Series]: the name of its dtype and its values. *)
Record Series : Type := mkSeries {
  dtype : string;
  values : list cell
}.

(** [col_series.isnull().any()] *)
Definition isnull_any (col_series : Series) : bool :=
  existsb pd_isnull (values col_series).

(** A [pd.DataFrame]: its columns in order, each a label and a series. *)
Definition DataFrame : Type := list (string * Series).

(** [df.itertuples(index=False, name=None)]: the rows, as [zip] of the
    columns gives them. *)
Definition itertuples (df : DataFrame) : list (list cell) :=
  let arrays := map (fun c => values (snd c)) df in
  match arrays with
  | [] => []
  | a :: rest =>
      let n := foldr (fun c acc => Nat.min (length c) acc) (length a) rest in
      map (fun i => map (fun c => nth i c CNone) arrays) (seq 0 n)
  end.

(** The library functions the loader calls on columns and strings. Their
    results depend on pandas' and Python's own rules (dtype inference of
    [Series.apply], date parsing, Unicode case mapping), so they are taken
    as given. *)
Record Library : Type := {
  (** [pd.to_datetime(col)], which may raise *)
  to_datetime : Series -> result Series;
  (** [pd.to_datetime(col, errors='coerce')] *)
  to_datetime_coerce : Series -> Series;
  (** [col.apply(lambda x: None if pd.isnull(x) else str(x))] *)
  apply_str : Series -> Series;
  (** [col.apply(lambda x: x.isoformat() if pd.notnull(x) else None)] *)
  apply_isoformat : Series -> Series;
  (** [col.apply(lambda x: None if pd.isnull(x) else x)] *)
  apply_none : Series -> Series;
  (** [s.upper()] and [s.lower()] *)
  upper : string -> string;
  lower : string -> string
}.

(** ** load_excel.py: SQL_TYPE_MAPPING and infer_sql_type *)

Module LoadExcel.

Definition type_map (int64 float64 object datetime64 bool_ : string)
  : gmap string string :=
  <["int64" := int64]> (<["float64" := float64]> (<["object" := object]>
  (<["datetime64[ns]" := datetime64]> (<["bool" := bool_]> ∅)))).

Definition sqlserver_types : gmap string string :=
  type_map "BIGINT" "FLOAT" "VARCHAR(4000)" "DATETIME" "BIT".
Definition oracle_types : gmap string string :=
  type_map "NUMBER" "FLOAT" "VARCHAR2(4000)" "DATE" "NUMBER(1)".
Definition snowflake_types : gmap string string :=
  type_map "NUMBER" "FLOAT" "VARCHAR" "TIMESTAMP_NTZ" "BOOLEAN".
Definition databricks_types : gmap string string :=
  type_map "BIGINT" "DOUBLE" "STRING" "TIMESTAMP" "BOOLEAN".
Definition mysql_types : gmap string string :=
  type_map "BIGINT" "DOUBLE" "VARCHAR(255)" "DATETIME" "TINYINT(1)".
Definition postgres_types : gmap string string :=
  type_map "BIGINT" "DOUBLE PRECISION" "TEXT" "TIMESTAMP" "BOOLEAN".

Definition SQL_TYPE_MAPPING : gmap string (gmap string string) :=
  <["sqlserver" := sqlserver_types]> (<["oracle" := oracle_types]>
  (<["snowflake" := snowflake_types]> (<["databricks" := databricks_types]>
  (<["mysql" := mysql_types]> (<["postgres" := postgres_types]> ∅))))).

Definition infer_sql_type (col_series : Series) (sql_types_map : gmap string string)
  : string :=
  if isnull_any col_series then dict_get sql_types_map "object" "VARCHAR(255)"
  else
    let dtype_str := dtype col_series in
    match sql_types_map !! dtype_str with
    | Some sql_type =>
        if String.eqb sql_type "" then dict_get sql_types_map "object" "VARCHAR(255)"
        else sql_type
    | None => dict_get sql_types_map "object" "VARCHAR(255)"
    end.


(** ** The database connection *)

(** One call on the DB-API cursor or connection. *)
Inductive call : Type :=
  | Execute (sql : string)
  | ExecuteMany (sql : string) (rows : list (list cell))
  | Commit.

(** The driver behind [jaydebeapi.connect]: what a statement does to the
    database [DB] and which rows it makes available, or the exception it
    raises. *)
Record Driver (DB : Type) : Type := {
  drv_execute : string -> DB -> result (list (list cell)) * DB;
  drv_executemany : string -> list (list cell) -> DB -> result unit * DB;
  drv_commit : DB -> result unit * DB
}.
Arguments drv_execute {DB} _ _ _.
Arguments drv_executemany {DB} _ _ _ _.
Arguments drv_commit {DB} _ _.

(** The world of a load: the database, the rows the cursor still holds,
    and every call made so far, oldest first. *)
Record World (DB : Type) : Type := mkWorld {
  database : DB;
  rowset : list (list cell);
  log : list call
}.
Arguments mkWorld {DB} _ _ _.
Arguments database {DB} _.
Arguments rowset {DB} _.
Arguments log {DB} _.

Record DBHandler : Type := {
  db_type : string;
  schema : option string;
  truncate_table : bool;
  drop_table : bool;
  debug : bool
}.

Section Handler.

Context {DB : Type} (drv : Driver DB) (lib : Library).

(** [self.cursor.execute(sql)] *)
Definition cursor_execute (sql : string) : M (World DB) unit :=
  fun w =>
    match drv_execute drv sql (database w) with
    | (Ok rows, d) => (Ok tt, mkWorld d rows (log w ++ [Execute sql]))
    | (Raise e, d) => (Raise e, mkWorld d (rowset w) (log w ++ [Execute sql]))
    end.

(** [self.cursor.executemany(sql, rows)] *)
Definition cursor_executemany (sql : string) (rows : list (list cell))
  : M (World DB) unit :=
  fun w =>
    match drv_executemany drv sql rows (database w) with
    | (r, d) => (r, mkWorld d (rowset w) (log w ++ [ExecuteMany sql rows]))
    end.

(** [self.conn.commit()] *)
Definition conn_commit : M (World DB) unit :=
  fun w =>
    match drv_commit drv (database w) with
    | (r, d) => (r, mkWorld d (rowset w) (log w ++ [Commit]))
    end.

(** [self.cursor.fetchone()] *)
Definition cursor_fetchone : M (World DB) (option (list cell)) :=
  fun w =>
    match rowset w with
    | [] => (Ok None, w)
    | row :: rest => (Ok (Some row), mkWorld (database w) rest (log w))
    end.

(** [self.cursor.fetchall()] *)
Definition cursor_fetchall : M (World DB) (list (list cell)) :=
  fun w => (Ok (rowset w), mkWorld (database w) [] (log w)).

Definition format_table_name (self : DBHandler) (table_name : string) : string :=
  if truthy_opt (schema self)
  then dquote +:+ format_opt (schema self) +:+ dquote +:+ "." +:+
       dquote +:+ table_name +:+ dquote
  else dquote +:+ table_name +:+ dquote.

Definition quote_identifier (identifier : string) : string :=
  dquote +:+ identifier +:+ dquote.

(** The two-line query of the information-schema dialects, laid out as the
    triple-quoted literal is. *)
Definition catalog_query (select_line where_line : string) : string :=
  newline +:+ spaces 16 +:+ select_line +:+
  newline +:+ spaces 16 +:+ where_line +:+
  newline +:+ spaces 12.

(** [schema.upper()]: an attribute error when the schema is [None]. *)
Definition schema_upper (self : DBHandler) : result string :=
  match schema self with
  | Some s => Ok (upper lib s)
  | None => Raise (AttributeError "upper")
  end.

(** A list comprehension whose element expression may raise. *)
Fixpoint collect {A B} (f : A -> result B) (xs : list A) : result (list B) :=
  match xs with
  | [] => Ok []
  | x :: xs' =>
      match f x with
      | Raise e => Raise e
      | Ok y =>
          match collect f xs' with
          | Raise e => Raise e
          | Ok ys => Ok (y :: ys)
          end
      end
  end.

Definition table_exists (self : DBHandler) (table_name : string) : M (World DB) bool :=
  let table := table_name in
  let schema_quoted :=
    if truthy_opt (schema self)
    then Some ("'" +:+ format_opt (schema self) +:+ "'") else None in
  let table_quoted := "'" +:+ table +:+ "'" in
  let fetch (query : string) : M (World DB) bool :=
    cursor_execute query ;;;
    row <- cursor_fetchone ;;
    ret (match row with Some _ => true | None => false end) in
  let information_schema :=
    catalog_query "SELECT * FROM INFORMATION_SCHEMA.TABLES"
      ("WHERE TABLE_SCHEMA = " +:+ format_opt schema_quoted +:+
       " AND TABLE_NAME = " +:+ table_quoted) in
  if String.eqb (db_type self) "sqlserver" then fetch information_schema
  else if String.eqb (db_type self) "oracle" then
    owner <- lift (schema_upper self) ;;
    fetch (catalog_query "SELECT * FROM all_tables"
             ("WHERE OWNER = '" +:+ owner +:+ "' AND table_name = '" +:+
              upper lib table +:+ "'"))
  else if String.eqb (db_type self) "snowflake" then
    owner <- lift (schema_upper self) ;;
    fetch (catalog_query "SELECT * FROM INFORMATION_SCHEMA.TABLES"
             ("WHERE TABLE_SCHEMA = '" +:+ owner +:+ "' AND TABLE_NAME = " +:+
              table_quoted))
  else if String.eqb (db_type self) "databricks" then
    cursor_execute ("SHOW TABLES IN " +:+ format_opt (schema self)) ;;;
    rows <- cursor_fetchall ;;
    let tables := map (fun row => nth_error row 1) rows in
    match collect (fun t => match t with Some t => Ok t | None => Raise IndexError end)
            tables with
    | Raise e => raise e
    | Ok cells =>
        let wanted := lower lib table in
        names <- lift (collect (fun t => match t with
                                         | CStr t => Ok (lower lib t)
                                         | _ => Raise (AttributeError "lower")
                                         end) cells) ;;
        ret (existsb (String.eqb wanted) names)
    end
  else if String.eqb (db_type self) "mysql" then fetch information_schema
  else if String.eqb (db_type self) "postgres" then fetch information_schema
  else raise (NotImplementedError
                ("Table check not implemented for " +:+ db_type self)).

(** The statement texts, as the methods below build them. *)
Definition drop_sql (self : DBHandler) (table_name : string) : string :=
  let qualified_name := format_table_name self table_name in
  "DROP TABLE " +:+ qualified_name.

Definition create_sql (self : DBHandler) (sql_types : gmap string string)
    (table_name : string) (df : DataFrame) : string :=
  let columns :=
    map (fun c => dquote +:+ fst c +:+ dquote +:+ " " +:+
                  infer_sql_type (snd c) sql_types) df in
  let columns_sql := String.concat ", " columns in
  let qualified_name := format_table_name self table_name in
  "CREATE TABLE " +:+ qualified_name +:+ " (" +:+ columns_sql +:+ ")".

Definition truncate_sql (self : DBHandler) (table_name : string) : string :=
  let qualified_name := format_table_name self table_name in
  "TRUNCATE TABLE " +:+ qualified_name.

Definition insert_sql (self : DBHandler) (table_name : string) (df : DataFrame)
  : string :=
  let qualified_name := format_table_name self table_name in
  let cols := map (fun c => dquote +:+ fst c +:+ dquote) df in
  let placeholders := String.concat ", " (replicate (length cols) "?") in
  "INSERT INTO " +:+ qualified_name +:+ " (" +:+ String.concat ", " cols +:+
  ") VALUES (" +:+ placeholders +:+ ")".

Definition drop_table_if_needed (self : DBHandler) (table_name : string)
  : M (World DB) unit :=
  if negb (drop_table self) then ret tt
  else
    cursor_execute (drop_sql self table_name) ;;;
    conn_commit.

Definition create_table (self : DBHandler) (table_name : string) (df : DataFrame)
  : M (World DB) unit :=
  match SQL_TYPE_MAPPING !! db_type self with
  | None => raise (KeyError (db_type self))
  | Some sql_types =>
      cursor_execute (create_sql self sql_types table_name df) ;;;
      conn_commit
  end.

Definition truncate_dialects : list string :=
  ["sqlserver"; "mysql"; "postgres"; "oracle"; "snowflake"; "databricks"].

Definition truncate_table_if_needed (self : DBHandler) (table_name : string)
  : M (World DB) unit :=
  if drop_table self then ret tt
  else if negb (truncate_table self) then ret tt
  else
    if existsb (String.eqb (db_type self)) truncate_dialects then
      cursor_execute (truncate_sql self table_name) ;;;
      conn_commit
    else raise (NotImplementedError
                  ("Truncate not implemented for " +:+ db_type self)).

Definition insert_data (self : DBHandler) (table_name : string) (df : DataFrame)
  : M (World DB) unit :=
  let data_tuples := itertuples df in
  cursor_executemany (insert_sql self table_name df) data_tuples ;;;
  conn_commit.

(** ** load_excel.py: process_excel_files *)

(** The first pass over the columns of a sheet: a column of dtype [object]
    is parsed as dates when that succeeds and left alone when it raises. *)
Definition reparse_dates (df : DataFrame) : DataFrame :=
  map (fun c =>
         if String.eqb (dtype (snd c)) "object" then
           match to_datetime lib (snd c) with
           | Ok parsed => (fst c, parsed)
           | Raise _ => c
           end
         else c) df.

(** The second pass: each column is rewritten according to the SQL type
    inferred for it. *)
Definition coerce_column (sql_types : gmap string string) (col : Series) : Series :=
  let col_type := infer_sql_type col sql_types in
  if str_contains "CHAR" (upper lib col_type)
     || str_contains "TEXT" (upper lib col_type)
     || str_contains "VARCHAR" (upper lib col_type)
     || str_contains "STRING" (upper lib col_type)
  then apply_str lib col
  else if str_contains "DATE" (upper lib col_type)
          || str_contains "TIMESTAMP" (upper lib col_type)
  then apply_isoformat lib (to_datetime_coerce lib col)
  else apply_none lib col.

Definition coerce_values (sql_types : gmap string string) (df : DataFrame) : DataFrame :=
  map (fun c => (fst c, coerce_column sql_types (snd c))) df.

(** [sheet_name.strip().replace(" ", "_")] *)
Definition table_name_of (sheet_name : string) : string :=
  replace (strip sheet_name) " " "_".

(** The body of the loop over the sheets of a workbook. [processed_tables]
    is the set the function keeps for the whole run. *)
Definition process_sheet (db_handler : DBHandler) (processed_tables : gset string)
    (sheet : string * DataFrame) : M (World DB) (gset string) :=
  let sheet_name := fst sheet in
  let df := reparse_dates (snd sheet) in
  match SQL_TYPE_MAPPING !! db_type db_handler with
  | None => raise (KeyError (db_type db_handler))
  | Some sql_types =>
      let df := coerce_values sql_types df in
      let table_name := table_name_of sheet_name in
      present <- table_exists db_handler table_name ;;
      processed_tables <-
        (if present then
           if drop_table db_handler then
             if negb (bool_decide (table_name ∈ processed_tables)) then
               drop_table_if_needed db_handler table_name ;;;
               let processed_tables := processed_tables ∪ {[table_name]} in
               create_table db_handler table_name df ;;;
               ret processed_tables
             else ret processed_tables
           else
             if truncate_table db_handler then
               if negb (bool_decide (table_name ∈ processed_tables)) then
                 truncate_table_if_needed db_handler table_name ;;;
                 ret (processed_tables ∪ {[table_name]})
               else ret processed_tables
             else ret processed_tables
         else
           create_table db_handler table_name df ;;;
           ret (processed_tables ∪ {[table_name]})) ;;
      insert_data db_handler table_name df ;;;
      ret processed_tables
  end.

End Handler.

(** ** The file system *)

(** What a path names: a regular file with its modification time and, when
    it is a workbook, its sheets in order; or a directory. *)
Inductive node : Type :=
  | File (mtime : Q) (workbook : option (list (string * DataFrame)))
  | Directory (mtime : Q).

(** [os.path.exists], [os.path.isfile], [os.path.getmtime] *)
Definition path_exists (fs : gmap string node) (path : string) : bool :=
  match fs !! path with
  | Some _ => true
  | None => false
  end.

Definition isfile (fs : gmap string node) (path : string) : bool :=
  match fs !! path with
  | Some (File _ _) => true
  | _ => false
  end.

Definition getmtime (fs : gmap string node) (path : string) : result Q :=
  match fs !! path with
  | Some (File t _) | Some (Directory t) => Ok t
  | None => Raise (FileNotFoundError path)
  end.

(** [pd.ExcelFile(path)] with [sheet_names] and [parse]: the sheets of the
    workbook, or an exception when the path is no workbook. *)
Definition ExcelFile (fs : gmap string node) (path : string)
  : result (list (string * DataFrame)) :=
  match fs !! path with
  | Some (File _ (Some sheets)) => Ok sheets
  | _ => Raise (ExcelReadError path)
  end.

Section Run.

Context {DB : Type} (drv : Driver DB) (lib : Library).

(** The body of the loop over the files. *)
Definition process_file (fs : gmap string node) (db_handler : DBHandler)
    (processed_tables : gset string) (file_path : string)
  : M (World DB) (gset string) :=
  if negb (path_exists fs file_path) then ret processed_tables
  else
    xls <- lift (ExcelFile fs file_path) ;;
    for_each (process_sheet drv lib db_handler) xls processed_tables.

Definition process_excel_files (fs : gmap string node) (excel_files : list string)
    (db_handler : DBHandler) : M (World DB) unit :=
  let processed_tables : gset string := ∅ in
  for_each (process_file fs db_handler) excel_files processed_tables ;;;
  ret tt.

End Run.

(** ** load_excel.py: find_input_file *)

(** [a > b] on modification times. *)
Definition mtime_gt (a b : Q) : bool := negb (Qle_bool a b).

Definition find_input_file (fs : gmap string node) (base_path : string)
  : result string :=
  let zip_path := base_path +:+ ".zip" in
  let xlsx_path := base_path +:+ ".xlsx" in
  let zip_exists := isfile fs zip_path in
  let xlsx_exists := isfile fs xlsx_path in
  if zip_exists && xlsx_exists then
    match getmtime fs zip_path with
    | Raise e => Raise e
    | Ok zip_mtime =>
        match getmtime fs xlsx_path with
        | Raise e => Raise e
        | Ok xlsx_mtime =>
            if mtime_gt zip_mtime xlsx_mtime then Ok zip_path else Ok xlsx_path
        end
    end
  else if zip_exists then Ok zip_path
  else if xlsx_exists then Ok xlsx_path
  else Raise (FileNotFoundError
                ("Neither '" +:+ zip_path +:+ "' nor '" +:+ xlsx_path +:+ "' found.")).

End LoadExcel.

(** ** extract_from_idmc.py *)

Module ExtractIdmc.

Definition version : Z := 20250613.
Definition CLIENT_ID : string := "idmc_api".
Definition NONCE : string := "1234".

Inductive http_method : Type := GET | POST.

(** A call of [requests.get] or [requests.post]. [body] is the value given
    to [json.dumps]. *)
Record Request : Type := mkRequest {
  method : http_method;
  url : string;
  headers : list (string * string);
  body : option json
}.

(** A [requests.Response]: [json_body] is what [response.json()] returns or
    raises, [header] is [response.headers.get], [chunks] is what
    [iter_content] yields. *)
Record Response : Type := mkResponse {
  status_code : Z;
  json_body : result json;
  header : string -> option string;
  chunks : list (list Byte.byte)
}.

(** What the script does to the world outside it. *)
Inductive event : Type :=
  | Sent (request : Request)
  | Slept (seconds : Z)
  | Opened (filename : string)
  | Wrote (filename : string) (chunk : list Byte.byte).

(** The network: each request gets a response or a transport exception,
    and the network moves on. [Net] is the state of all that lies outside
    the script: the services and the file system of the machine. *)
Definition Transport (Net : Type) : Type := Request -> Net -> result Response * Net.

(** The file system the export is saved to: [open(filename, "wb")] and
    [f.write(chunk)] succeed or raise (a missing directory, a directory
    under that name, no permission, a full disk), and the world outside
    moves on. *)
Record Disk (Net : Type) : Type := mkDisk {
  disk_open : string -> Net -> result unit * Net;
  disk_write : string -> list Byte.byte -> Net -> result unit * Net
}.
Arguments mkDisk {Net} _ _.
Arguments disk_open {Net} _ _ _.
Arguments disk_write {Net} _ _ _ _.

Record World (Net : Type) : Type := mkWorld {
  network : Net;
  events : list event
}.
Arguments mkWorld {Net} _ _.
Arguments network {Net} _.
Arguments events {Net} _.

(** [response.raise_for_status()] *)
Definition raise_for_status (response : Response) : result unit :=
  if (400 <=? status_code response)%Z && (status_code response <? 600)%Z
  then Raise (HTTPError (status_code response))
  else Ok tt.

(** [re.search] for the pattern of the downloader, and its group 1: the
    text [filename=], a double quote, one or more characters other than the
    double quote (the group), and a double quote. [unquoted_run] is the
    longest run of characters other than the double quote, with what follows
    it; the greedy group can only be that run. *)
Fixpoint unquoted_run (s : string) : string * string :=
  match s with
  | EmptyString => (EmptyString, EmptyString)
  | String c s' =>
      if Ascii.eqb c "034"%char then (EmptyString, s)
      else let (run, rest) := unquoted_run s' in (String c run, rest)
  end.

Fixpoint strip_prefix (p s : string) : option string :=
  match p, s with
  | EmptyString, _ => Some s
  | String a p', String b s' => if Ascii.eqb a b then strip_prefix p' s' else None
  | String _ _, EmptyString => None
  end.

Definition match_filename_at (s : string) : option string :=
  match strip_prefix ("filename=" +:+ dquote) s with
  | None => None
  | Some after =>
      match unquoted_run after with
      | (EmptyString, _) => None
      | (name, String _ _) => Some name
      | (_, EmptyString) => None
      end
  end.

Fixpoint search_filename (s : string) : option string :=
  match match_filename_at s with
  | Some name => Some name
  | None =>
      match s with
      | EmptyString => None
      | String _ s' => search_filename s'
      end
  end.

Section Client.

Context {Net : Type} (transport : Transport Net) (disk : Disk Net).

Definition send (request : Request) : M (World Net) Response :=
  fun w =>
    match transport request (network w) with
    | (r, n) => (r, mkWorld n (events w ++ [Sent request]))
    end.

(** [time.sleep(seconds)], which refuses a negative length. *)
Definition sleep (seconds : Z) : M (World Net) unit :=
  fun w =>
    if (seconds <? 0)%Z
    then (Raise (ValueError "sleep length must be non-negative"), w)
    else (Ok tt, mkWorld (network w) (events w ++ [Slept seconds])).

(** [open(filename, "wb")] and [f.write(chunk)]: an event is recorded when
    the file system has done it; when it raises, the exception goes on. *)
Definition open_wb (filename : string) : M (World Net) unit :=
  fun w =>
    match disk_open disk filename (network w) with
    | (Ok _, n) => (Ok tt, mkWorld n (events w ++ [Opened filename]))
    | (Raise e, n) => (Raise e, mkWorld n (events w))
    end.
Definition write (filename : string) (chunk : list Byte.byte) : M (World Net) unit :=
  fun w =>
    match disk_write disk filename chunk (network w) with
    | (Ok _, n) => (Ok tt, mkWorld n (events w ++ [Wrote filename chunk]))
    | (Raise e, n) => (Raise e, mkWorld n (events w))
    end.

Definition login (pod username password : string) : M (World Net) (json * json) :=
  let url := "https://" +:+ pod +:+
             ".informaticacloud.com/identity-service/api/v1/Login" in
  let payload :=
    JObj (<["username" := JStr username]> (<["password" := JStr password]> ∅)) in
  let headers := [("Content-Type", "application/json")] in
  response <- send (mkRequest POST url headers (Some payload)) ;;
  lift (raise_for_status response) ;;;
  data <- lift (json_body response) ;;
  session_id <- lift (py_get data "sessionId") ;;
  org_id <- lift (py_get data "currentOrgId") ;;
  if negb (truthy session_id) || negb (truthy org_id)
  then raise (ExceptionAbout
                "Login failed, missing sessionId or currentOrgId: " data)
  else ret (session_id, org_id).

(** The status of a poll, as the loop reads it. *)
Inductive verdict : Type :=
  | Completed
  | Ended (status : string)
  | Running.

Definition read_status (status : json) : verdict :=
  match status with
  | JStr s =>
      if String.eqb s "COMPLETED" then Completed
      else if existsb (String.eqb s) ["FAILED"; "CANCELED"; "ERROR"] then Ended s
      else Running
  | _ => Running
  end.

Definition default_poll_interval : Z := 10.

(** The [while True] loop, with [fuel] bounding the number of polls: [None]
    is returned when the bound is reached with the job still running. *)
Fixpoint check_job_status (fuel : nat) (pod org_id jwt_token job_id : string)
    (poll_interval : Z) : M (World Net) (option unit) :=
  let url := "https://idmc-api." +:+ pod +:+
             ".informaticacloud.com/data360/observable/v1/jobs/" +:+ job_id in
  let headers := [("X-INFA-ORG-ID", org_id);
                  ("Authorization", "Bearer " +:+ jwt_token)] in
  match fuel with
  | O => ret None
  | S fuel' =>
      response <- send (mkRequest GET url headers None) ;;
      lift (raise_for_status response) ;;;
      data <- lift (json_body response) ;;
      status <- lift (py_get data "status") ;;
      match read_status status with
      | Completed => ret (Some tt)
      | Ended s => raise (Exception ("Job ended with status: " +:+ s))
      | Running =>
          sleep poll_interval ;;;
          check_job_status fuel' pod org_id jwt_token job_id poll_interval
      end
  end.

Definition download_export_file (pod org_id jwt_token output_uri export_filename_base : string)
  : M (World Net) string :=
  let url := "https://idmc-api." +:+ pod +:+ ".informaticacloud.com" +:+ output_uri in
  let headers := [("X-INFA-ORG-ID", org_id);
                  ("Authorization", "Bearer " +:+ jwt_token)] in
  response <- send (mkRequest GET url headers None) ;;
  lift (raise_for_status response) ;;;
  let content_disposition := header response "Content-Disposition" in
  let filename :=
    match content_disposition with
    | Some value => if String.eqb value "" then None else search_filename value
    | None => None
    end in
  let filename :=
    match filename with
    | Some name =>
        if String.eqb name "" then export_filename_base +:+ ".bin" else name
    | None => export_filename_base +:+ ".bin"
    end in
  open_wb filename ;;;
  for_each (fun _ chunk => write filename chunk) (chunks response) tt ;;;
  ret filename.

End Client.

End ExtractIdmc.

(** * Properties *)

(** ** Type inference *)

Section TypeInference.

Import LoadExcel.

(** The six dialect maps, and nothing else, are the values of
    [SQL_TYPE_MAPPING]. *)
Definition dialect_maps : list (gmap string string) :=
  [sqlserver_types; oracle_types; snowflake_types; databricks_types;
   mysql_types; postgres_types].

Lemma SQL_TYPE_MAPPING_values (dialect : string) (sql_types : gmap string string) :
  SQL_TYPE_MAPPING !! dialect = Some sql_types -> sql_types ∈ dialect_maps.
Proof.
  unfold SQL_TYPE_MAPPING, dialect_maps.
  rewrite !lookup_insert_Some, lookup_empty.
  intros H. repeat rewrite elem_of_cons.
  repeat (destruct H as [[_ <-] | [_ H]]; [tauto |]). discriminate.
Qed.

Lemma SQL_TYPE_MAPPING_keys (sql_types : gmap string string) :
  sql_types ∈ dialect_maps -> exists dialect, SQL_TYPE_MAPPING !! dialect = Some sql_types.
Proof.
  unfold dialect_maps. repeat rewrite elem_of_cons. rewrite elem_of_nil.
  intros [-> | [-> | [-> | [-> | [-> | [-> | []]]]]]].
  - by exists "sqlserver".
  - by exists "oracle".
  - by exists "snowflake".
  - by exists "databricks".
  - by exists "mysql".
  - by exists "postgres".
Qed.

(** The entries of a dialect map are the five dtype names, each with a
    non-empty SQL type. *)
Lemma type_map_lookup (a b c d e key sql_type : string) :
  type_map a b c d e !! key = Some sql_type ->
  sql_type ∈ [a; b; c; d; e].
Proof.
  unfold type_map. rewrite !lookup_insert_Some, lookup_empty.
  intros H. repeat rewrite elem_of_cons.
  repeat (destruct H as [[_ <-] | [_ H]]; [tauto |]). discriminate.
Qed.

Lemma dialect_entries_nonempty (sql_types : gmap string string) (key sql_type : string) :
  sql_types ∈ dialect_maps -> sql_types !! key = Some sql_type -> sql_type <> "".
Proof.
  unfold dialect_maps. repeat rewrite elem_of_cons. rewrite elem_of_nil.
  intros [-> | [-> | [-> | [-> | [-> | [-> | []]]]]]] Hk;
    apply type_map_lookup in Hk; revert Hk;
    repeat rewrite elem_of_cons; rewrite elem_of_nil;
    intros [-> | [-> | [-> | [-> | [-> | []]]]]]; discriminate.
Qed.

Lemma dialect_has_object (sql_types : gmap string string) :
  sql_types ∈ dialect_maps -> is_Some (sql_types !! "object").
Proof.
  unfold dialect_maps. repeat rewrite elem_of_cons. rewrite elem_of_nil.
  intros [-> | [-> | [-> | [-> | [-> | [-> | []]]]]]]; by eexists.
Qed.

Lemma isnull_any_true (col : Series) (x : cell) :
  x ∈ values col -> pd_isnull x = true -> isnull_any col = true.
Proof.
  intros Hin Hnull. unfold isnull_any. apply existsb_exists.
  exists x. split; [by apply list_elem_of_In | done].
Qed.

Lemma isnull_any_false (col : Series) :
  (forall x, x ∈ values col -> pd_isnull x = false) -> isnull_any col = false.
Proof.
  intros Hall. unfold isnull_any.
  destruct (existsb pd_isnull (values col)) eqn:E; [| done].
  apply existsb_exists in E as (x & Hin & Hx).
  apply list_elem_of_In in Hin. rewrite (Hall x Hin) in Hx. discriminate.
Qed.

(** C1. A column with at least one missing value gets the text type of the
    dialect, the [object] entry of its map, whatever its dtype and its other
    values are: for each of the six maps of [SQL_TYPE_MAPPING], and for any
    map that has an [object] entry. *)
Theorem infer_sql_type_null_is_text (col : Series) (x : cell) :
  x ∈ values col -> pd_isnull x = true ->
  (forall dialect sql_types,
      SQL_TYPE_MAPPING !! dialect = Some sql_types ->
      sql_types !! "object" = Some (infer_sql_type col sql_types)) /\
  (forall sql_types text_type,
      sql_types !! "object" = Some text_type ->
      infer_sql_type col sql_types = text_type).
Proof.
  intros Hin Hnull.
  assert (Hany : isnull_any col = true) by eauto using isnull_any_true.
  assert (Hgen : forall sql_types text_type,
             sql_types !! "object" = Some text_type ->
             infer_sql_type col sql_types = text_type).
  { intros m t Hobj. unfold infer_sql_type, dict_get. by rewrite Hany, Hobj. }
  split; [| exact Hgen].
  intros dialect m Hm.
  destruct (dialect_has_object m) as [t Ht]; [eauto using SQL_TYPE_MAPPING_values |].
  by rewrite (Hgen m t Ht).
Qed.

Lemma infer_sql_type_null_is_text_witness :
  let nan := CFloat 0x7FF8000000000000 in
  let col := mkSeries "float64" [CFloat 0x3FF0000000000000; nan] in
  infer_sql_type col oracle_types = "VARCHAR2(4000)".
Proof.
  intros nan col.
  apply (proj2 (infer_sql_type_null_is_text col nan
                  ltac:(apply list_elem_of_In; right; left; reflexivity) eq_refl)).
  reflexivity.
Defined.

(** C8. On a column without missing values [infer_sql_type] always returns
    a type. With one of the six dialect maps it is the entry of the column's
    dtype when there is one and the map's [object] entry otherwise, and it
    is never empty; with any map, a dtype without entry falls back to the
    [object] entry, and to [VARCHAR(255)] when that is absent too. *)
Theorem infer_sql_type_total (col : Series) :
  (forall x, x ∈ values col -> pd_isnull x = false) ->
  (forall dialect sql_types,
      SQL_TYPE_MAPPING !! dialect = Some sql_types ->
      infer_sql_type col sql_types <> "" /\
      match sql_types !! dtype col with
      | Some sql_type => infer_sql_type col sql_types = sql_type
      | None => sql_types !! "object" = Some (infer_sql_type col sql_types)
      end) /\
  (forall sql_types : gmap string string,
      match sql_types !! dtype col with
      | Some sql_type => sql_type <> "" -> infer_sql_type col sql_types = sql_type
      | None =>
          infer_sql_type col sql_types =
          match sql_types !! "object" with
          | Some text_type => text_type
          | None => "VARCHAR(255)"
          end
      end).
Proof.
  intros Hall. apply isnull_any_false in Hall.
  assert (Hgen : forall sql_types : gmap string string,
      match sql_types !! dtype col with
      | Some sql_type => sql_type <> "" -> infer_sql_type col sql_types = sql_type
      | None =>
          infer_sql_type col sql_types =
          match sql_types !! "object" with
          | Some text_type => text_type
          | None => "VARCHAR(255)"
          end
      end).
  { intros m. unfold infer_sql_type, dict_get. rewrite Hall.
    destruct (m !! dtype col) as [t |] eqn:Hd; [| done].
    intros Hne. destruct (String.eqb_spec t ""); [done | done]. }
  split; [| exact Hgen].
  intros dialect m Hm. apply SQL_TYPE_MAPPING_values in Hm.
  specialize (Hgen m).
  destruct (dialect_has_object m Hm) as [t Ht].
  destruct (m !! dtype col) as [u |] eqn:Hd.
  - assert (u <> "") by eauto using dialect_entries_nonempty.
    rewrite Hgen by done. done.
  - rewrite Hgen, Ht. split; [| done].
    eauto using dialect_entries_nonempty.
Qed.

Lemma infer_sql_type_total_witness :
  infer_sql_type (mkSeries "int64" [CInt 1; CInt 2]) sqlserver_types = "BIGINT" /\
  infer_sql_type (mkSeries "category" [CStr "a"]) postgres_types = "TEXT".
Proof.
  split.
  - pose proof (proj1 (infer_sql_type_total (mkSeries "int64" [CInt 1; CInt 2])
        ltac:(intros x; simpl; rewrite !elem_of_cons, elem_of_nil;
              intros [-> | [-> | []]]; reflexivity))
        "sqlserver" sqlserver_types eq_refl) as [_ H].
    exact H.
  - pose proof (proj1 (infer_sql_type_total (mkSeries "category" [CStr "a"])
        ltac:(intros x; simpl; rewrite !elem_of_cons, elem_of_nil;
              intros [-> | []]; reflexivity))
        "postgres" postgres_types eq_refl) as [_ H].
    assert (H' : postgres_types !! "object" =
                 Some (infer_sql_type (mkSeries "category" [CStr "a"]) postgres_types))
      by exact H.
    apply (inj Some). rewrite <- H'. reflexivity.
Defined.

End TypeInference.

(** ** Input resolution *)

Section InputResolution.

Import LoadExcel.

Lemma mtime_gt_lt (a b : Q) : mtime_gt a b = true <-> (b < a)%Q.
Proof.
  unfold mtime_gt. rewrite negb_true_iff.
  split.
  - intros H. apply Qnot_le_lt. intros Hle.
    apply Qle_bool_iff in Hle. congruence.
  - intros Hlt. destruct (Qle_bool a b) eqn:E; [| done].
    apply Qle_bool_iff in E. exfalso. by apply (Qlt_not_le b a).
Qed.

Lemma mtime_gt_le (a b : Q) : mtime_gt a b = false <-> (a <= b)%Q.
Proof.
  unfold mtime_gt. rewrite negb_false_iff. apply Qle_bool_iff.
Qed.

(** When both candidates are regular files the choice is the comparison of
    their modification times. *)
Lemma find_input_file_both (fs : gmap string node) (base_path : string)
    (zip_mtime xlsx_mtime : Q) :
  isfile fs (base_path +:+ ".zip") = true ->
  isfile fs (base_path +:+ ".xlsx") = true ->
  getmtime fs (base_path +:+ ".zip") = Ok zip_mtime ->
  getmtime fs (base_path +:+ ".xlsx") = Ok xlsx_mtime ->
  find_input_file fs base_path =
    if mtime_gt zip_mtime xlsx_mtime
    then Ok (base_path +:+ ".zip") else Ok (base_path +:+ ".xlsx").
Proof.
  intros Hz Hx Hmz Hmx. unfold find_input_file.
  by rewrite Hz, Hx, Hmz, Hmx.
Qed.

Lemma isfile_getmtime (fs : gmap string node) (path : string) :
  isfile fs path = true -> exists mtime, getmtime fs path = Ok mtime.
Proof.
  unfold isfile, getmtime.
  destruct (fs !! path) as [[t wb | t] |]; [eauto | done | done].
Qed.

(** C7. With both [base.zip] and [base.xlsx] regular files, the one with
    the strictly greater modification time is returned; with only one of
    them, that one; with neither, the call fails with a file-not-found
    error. *)
Theorem find_input_file_newest (fs : gmap string node) (base_path : string) :
  let zip_path := base_path +:+ ".zip" in
  let xlsx_path := base_path +:+ ".xlsx" in
  (forall zip_mtime xlsx_mtime,
      isfile fs zip_path = true -> isfile fs xlsx_path = true ->
      getmtime fs zip_path = Ok zip_mtime ->
      getmtime fs xlsx_path = Ok xlsx_mtime ->
      ((xlsx_mtime < zip_mtime)%Q -> find_input_file fs base_path = Ok zip_path) /\
      ((zip_mtime < xlsx_mtime)%Q -> find_input_file fs base_path = Ok xlsx_path)) /\
  (isfile fs zip_path = true -> isfile fs xlsx_path = false ->
   find_input_file fs base_path = Ok zip_path) /\
  (isfile fs zip_path = false -> isfile fs xlsx_path = true ->
   find_input_file fs base_path = Ok xlsx_path) /\
  (isfile fs zip_path = false -> isfile fs xlsx_path = false ->
   exists msg, find_input_file fs base_path = Raise (FileNotFoundError msg)).
Proof.
  intros zip_path xlsx_path. repeat split.
  - intros Hlt. rewrite (find_input_file_both fs base_path zip_mtime xlsx_mtime) by done.
    apply mtime_gt_lt in Hlt. by rewrite Hlt.
  - intros Hlt. rewrite (find_input_file_both fs base_path zip_mtime xlsx_mtime) by done.
    assert (Hle : mtime_gt zip_mtime xlsx_mtime = false)
      by (apply mtime_gt_le; by apply Qlt_le_weak).
    by rewrite Hle.
  - intros Hz Hx. unfold find_input_file. fold zip_path xlsx_path. by rewrite Hz, Hx.
  - intros Hz Hx. unfold find_input_file. fold zip_path xlsx_path. by rewrite Hz, Hx.
  - intros Hz Hx. unfold find_input_file. fold zip_path xlsx_path. rewrite Hz, Hx.
    simpl. eauto.
Qed.

(** A directory with an older spreadsheet and a newer archive. *)
Definition sample_fs (zip_mtime xlsx_mtime : Q) : gmap string node :=
  <["export.zip" := File zip_mtime None]>
  (<["export.xlsx" := File xlsx_mtime (Some [])]> ∅).

Lemma find_input_file_newest_witness :
  find_input_file (sample_fs 200%Q 100%Q) "export" = Ok "export.zip" /\
  find_input_file (sample_fs 100%Q 200%Q) "export" = Ok "export.xlsx".
Proof.
  split.
  - apply (proj1 (find_input_file_newest (sample_fs 200%Q 100%Q) "export") 200%Q 100%Q);
      reflexivity.
  - apply (proj1 (find_input_file_newest (sample_fs 100%Q 200%Q) "export") 100%Q 200%Q);
      reflexivity.
Defined.

(** C10. With both files present and equal modification times the
    spreadsheet is returned: only a strictly newer archive is preferred. *)
Theorem find_input_file_tie (fs : gmap string node) (base_path : string)
    (zip_mtime xlsx_mtime : Q) :
  isfile fs (base_path +:+ ".zip") = true ->
  isfile fs (base_path +:+ ".xlsx") = true ->
  getmtime fs (base_path +:+ ".zip") = Ok zip_mtime ->
  getmtime fs (base_path +:+ ".xlsx") = Ok xlsx_mtime ->
  (zip_mtime == xlsx_mtime)%Q ->
  find_input_file fs base_path = Ok (base_path +:+ ".xlsx").
Proof.
  intros Hz Hx Hmz Hmx Heq.
  rewrite (find_input_file_both fs base_path zip_mtime xlsx_mtime) by done.
  assert (Hle : mtime_gt zip_mtime xlsx_mtime = false).
  { apply mtime_gt_le. rewrite Heq. apply Qle_refl. }
  by rewrite Hle.
Qed.

Lemma find_input_file_tie_witness :
  find_input_file (sample_fs 150%Q (300 # 2)%Q) "export" = Ok "export.xlsx".
Proof.
  apply (find_input_file_tie (sample_fs 150%Q (300 # 2)%Q) "export" 150%Q (300 # 2)%Q);
    reflexivity.
Defined.

End InputResolution.

(** ** Table names *)

Section TableNames.

Import LoadExcel.

Fixpoint str_all (p : ascii -> bool) (s : string) : bool :=
  match s with
  | EmptyString => true
  | String c s' => p c && str_all p s'
  end.

Fixpoint str_map (f : ascii -> ascii) (s : string) : string :=
  match s with
  | EmptyString => EmptyString
  | String c s' => String (f c) (str_map f s')
  end.

Definition starts_with_space (s : string) : bool :=
  match s with
  | String c _ => isspace c
  | EmptyString => false
  end.

Fixpoint ends_with_space (s : string) : bool :=
  match s with
  | EmptyString => false
  | String c EmptyString => isspace c
  | String _ s' => ends_with_space s'
  end.

(** The character-wise effect of [replace(" ", "_")]. *)
Definition space_to_underscore (c : ascii) : ascii :=
  if Ascii.eqb c " " then "_"%char else c.

(** The normal form in the words of the specification: every white-space
    character of the sheet name becomes an underscore. *)
Definition whitespace_to_underscores (sheet_name : string) : string :=
  str_map (fun c => if isspace c then "_"%char else c) sheet_name.

Lemma append_cons (c : ascii) (a b : string) :
  String c a +:+ b = String c (a +:+ b).
Proof. reflexivity. Qed.

Lemma append_empty_l (a : string) : "" +:+ a = a.
Proof. reflexivity. Qed.

Lemma append_empty_r (a : string) : a +:+ "" = a.
Proof. induction a as [| c a IH]; [done |]. by rewrite append_cons, IH. Qed.

Lemma lstrip_spec (s : string) :
  exists lead, s = lead +:+ lstrip s /\ str_all isspace lead = true /\
               starts_with_space (lstrip s) = false.
Proof.
  induction s as [| c s IH]; simpl.
  - by exists "".
  - destruct (isspace c) eqn:Hc.
    + destruct IH as (lead & Heq & Hall & Hstart).
      exists (String c lead). rewrite append_cons, <- Heq. simpl.
      by rewrite Hc, Hall.
    + exists "". simpl. by rewrite Hc.
Qed.

Lemma rstrip_spec (s : string) :
  exists trail, s = rstrip s +:+ trail /\ str_all isspace trail = true /\
                ends_with_space (rstrip s) = false.
Proof.
  induction s as [| c s IH]; simpl.
  - by exists "".
  - destruct IH as (trail & Heq & Hall & Hend).
    destruct (rstrip s) as [| d r] eqn:Hr.
    + rewrite append_empty_l in Heq. subst trail.
      destruct (isspace c) eqn:Hc.
      * exists (String c s). simpl. by rewrite Hc, Hall.
      * exists s. simpl. by rewrite Hc.
    + exists trail. rewrite append_cons, <- Heq. done.
Qed.

Lemma rstrip_keeps_start (s : string) :
  starts_with_space s = false -> starts_with_space (rstrip s) = false.
Proof.
  destruct s as [| c s]; [done |]. simpl. intros Hc.
  destruct (rstrip s); [by rewrite Hc | done].
Qed.

Lemma prefix_empty (s : string) : String.prefix "" s = true.
Proof. by destruct s. Qed.

Lemma prefix_cons (a b : ascii) (p s : string) :
  String.prefix (String a p) (String b s) = Ascii.eqb a b && String.prefix p s.
Proof.
  change (String.prefix (String a p) (String b s))
    with (if ascii_dec a b then String.prefix p s else false).
  destruct (ascii_dec a b) as [-> | Hne].
  - by rewrite Ascii.eqb_refl.
  - apply Ascii.eqb_neq in Hne. by rewrite Hne.
Qed.

Lemma replace_from_cons (old new : string) (c : ascii) (s : string) :
  replace_from old new (String c s) 0 =
  if String.prefix old (String c s)
  then new +:+ replace_from old new s (String.length old - 1)
  else String c (replace_from old new s 0).
Proof. reflexivity. Qed.

Lemma replace_space (s : string) :
  replace s " " "_" = str_map space_to_underscore s.
Proof.
  unfold replace. induction s as [| c s IH]; [done |].
  rewrite replace_from_cons, prefix_cons, prefix_empty, andb_true_r.
  cbn [str_map]. unfold space_to_underscore at 1.
  rewrite (Ascii.eqb_sym c).
  destruct (Ascii.eqb " " c); cbn [String.length Nat.sub];
    rewrite IH; reflexivity.
Qed.

(** C5, as the code has it. The table name of a sheet is its name without
    the leading and trailing white space, with every remaining space
    character (and no other white space) replaced by an underscore; and a
    sheet is processed through its table name only, so two sheets with the
    same table name are loaded into the same table. *)
Theorem table_name_of_strips_then_replaces (sheet_name : string) :
  (exists lead core trail,
      sheet_name = lead +:+ core +:+ trail /\
      str_all isspace lead = true /\ str_all isspace trail = true /\
      starts_with_space core = false /\ ends_with_space core = false /\
      table_name_of sheet_name = str_map space_to_underscore core) /\
  (forall (DB : Type) (drv : Driver DB) (lib : Library) (db_handler : DBHandler)
          (processed_tables : gset string) (other : string) (df : DataFrame),
      table_name_of other = table_name_of sheet_name ->
      process_sheet drv lib db_handler processed_tables (other, df) =
      process_sheet drv lib db_handler processed_tables (sheet_name, df)).
Proof.
  split.
  - destruct (lstrip_spec sheet_name) as (lead & Hl & Hlead & Hstart).
    destruct (rstrip_spec (lstrip sheet_name)) as (trail & Hr & Htrail & Hend).
    exists lead, (strip sheet_name), trail. unfold table_name_of, strip.
    repeat split; try done.
    + by rewrite <- Hr.
    + by apply rstrip_keeps_start.
    + apply replace_space.
  - intros DB drv lib h P other df Heq. unfold process_sheet. simpl.
    by rewrite Heq.
Qed.

(** A driver that accepts every statement and reports one row for every
    query, over a database without state. *)
Definition accepting_driver : Driver unit := {|
  drv_execute := fun _ d => (Ok [[CInt 1]], d);
  drv_executemany := fun _ _ d => (Ok tt, d);
  drv_commit := fun d => (Ok tt, d)
|}.

(** The library functions, replaced by stand-ins that leave their argument
    as it is. *)
Definition plain_library : Library := {|
  to_datetime := fun col => Ok col;
  to_datetime_coerce := fun col => col;
  apply_str := fun col => col;
  apply_isoformat := fun col => col;
  apply_none := fun col => col;
  upper := fun s => s;
  lower := fun s => s
|}.

Definition postgres_handler (drop truncate : bool) : DBHandler := {|
  db_type := "postgres";
  schema := Some "public";
  truncate_table := truncate;
  drop_table := drop;
  debug := false
|}.

Lemma table_name_of_strips_then_replaces_witness :
  process_sheet accepting_driver plain_library (postgres_handler false false) ∅
    ("  Q1 Sales ", []) =
  process_sheet accepting_driver plain_library (postgres_handler false false) ∅
    ("Q1 Sales", []).
Proof.
  apply (proj2 (table_name_of_strips_then_replaces "Q1 Sales")).
  reflexivity.
Defined.

(** C5, as the specification words it, fails on a sheet name with leading
    white space: the code removes it where the words replace it. *)
Lemma table_name_of_counterexample :
  table_name_of " Q1 Sales" = "Q1_Sales" /\
  whitespace_to_underscores " Q1 Sales" = "_Q1_Sales" /\
  table_name_of " Q1 Sales" <> whitespace_to_underscores " Q1 Sales".
Proof. repeat split. discriminate. Qed.

End TableNames.

(** ** Facts about the monad *)

Section MonadFacts.

Context {W : Type}.

Lemma bind_Ok {A B} (m : M W A) (k : A -> M W B) (w w' : W) (b : B) :
  bind m k w = (Ok b, w') ->
  exists a w1, m w = (Ok a, w1) /\ k a w1 = (Ok b, w').
Proof.
  unfold bind. destruct (m w) as [[a | e] w1]; [eauto | discriminate].
Qed.

Lemma bind_run {A B} (m : M W A) (k : A -> M W B) (w w1 : W) (a : A) :
  m w = (Ok a, w1) -> bind m k w = k a w1.
Proof. unfold bind. by intros ->. Qed.

Lemma bind_raise {A B} (m : M W A) (k : A -> M W B) (w w1 : W) (e : exn) :
  m w = (Raise e, w1) -> bind m k w = (Raise e, w1).
Proof. unfold bind. by intros ->. Qed.

Lemma for_each_app {A S} (body : S -> A -> M W S) (xs ys : list A) (acc : S) (w : W) :
  for_each body (xs ++ ys) acc w =
  bind (for_each body xs acc) (for_each body ys) w.
Proof.
  revert acc w. induction xs as [| x xs IH]; intros acc w; [reflexivity |].
  cbn [for_each app]. unfold bind at 1 2 3.
  destruct (body acc x w) as [[acc' | e] w1]; [| reflexivity].
  apply IH.
Qed.

End MonadFacts.

(** ** The downloaded file's name *)

Section Download.

Import ExtractIdmc.


(** The text the pattern matches around a name. *)
Definition filename_field (name : string) : string :=
  "filename=" +:+ dquote +:+ name +:+ dquote.






Lemma append_assoc (a b c : string) : (a +:+ b) +:+ c = a +:+ (b +:+ c).
Proof.
  induction a as [| x a IH]; [done |]. by rewrite !append_cons, IH.
Qed.

Lemma length_append (a b : string) :
  String.length (a +:+ b) = String.length a + String.length b.
Proof.
  induction a as [| x a IH]; [done |]. rewrite append_cons. cbn. by rewrite IH.
Qed.









(** The request of the download, and what the call leaves behind when the
    file is saved as [filename]. *)
Definition download_request (pod org_id jwt_token output_uri : string) : Request :=
  mkRequest GET
    ("https://idmc-api." +:+ pod +:+ ".informaticacloud.com" +:+ output_uri)
    [("X-INFA-ORG-ID", org_id); ("Authorization", "Bearer " +:+ jwt_token)]
    None.









(** A server that answers every request with the same response. *)
Definition constant_transport (response : Response) : Transport unit :=
  fun _ net => (Ok response, net).

(** A file system that opens every file and takes every chunk, and one
    without subdirectories, where a name with a slash cannot be opened. *)
Definition accepting_disk {Net : Type} : Disk Net :=
  mkDisk (fun _ net => (Ok tt, net)) (fun _ _ net => (Ok tt, net)).


Definition export_response (content_disposition : option string) : Response :=
  mkResponse 200 (Raise JSONDecodeError)
    (fun key => if String.eqb key "Content-Disposition"
                then content_disposition else None)
    [[Byte.x50; Byte.x4b]].

Definition attachment_header : string :=
  "attachment; " +:+ filename_field "Export_1.xlsx".





End Download.

(** ** Login *)

Section Login.

Import ExtractIdmc.

Definition login_request (pod username password : string) : Request :=
  mkRequest POST
    ("https://" +:+ pod +:+ ".informaticacloud.com/identity-service/api/v1/Login")
    [("Content-Type", "application/json")]
    (Some (JObj (<["username" := JStr username]>
                 (<["password" := JStr password]> ∅)))).

Definition login_failed (data : json) : exn :=
  ExceptionAbout "Login failed, missing sessionId or currentOrgId: " data.

(** The value [data.get(key)] yields on a dict. *)
Definition field (fields : gmap string json) (key : string) : json :=
  match fields !! key with
  | Some v => v
  | None => JNull
  end.

(** The call, once a response with a success status and a JSON object as
    body is in hand. *)
Lemma login_run {Net : Type} (transport : Transport Net) (w : World Net)
    (pod username password : string) (response : Response) (net : Net)
    (fields : gmap string json) :
  transport (login_request pod username password) (network w) = (Ok response, net) ->
  raise_for_status response = Ok tt ->
  json_body response = Ok (JObj fields) ->
  login transport pod username password w =
  (if negb (truthy (field fields "sessionId"))
      || negb (truthy (field fields "currentOrgId"))
   then Raise (login_failed (JObj fields))
   else Ok (field fields "sessionId", field fields "currentOrgId"),
   mkWorld net (events w ++ [Sent (login_request pod username password)])).
Proof.
  intros Hsend Hstatus Hbody. unfold login.
  fold (login_request pod username password).
  unfold bind at 1. unfold send at 1. rewrite Hsend.
  unfold bind at 1. unfold lift at 1. rewrite Hstatus.
  unfold bind at 1. unfold lift at 1. rewrite Hbody.
  unfold bind, lift, py_get, field.
  destruct (fields !! "sessionId") as [sid |], (fields !! "currentOrgId") as [oid |];
    cbn [truthy negb orb]; try reflexivity.
  - destruct (negb (truthy sid) || negb (truthy oid)); reflexivity.
  - by rewrite orb_true_r.
Qed.

(** C4, as the code has it. On a response with a success status whose body
    is a JSON object, [login] fails exactly when [sessionId] or
    [currentOrgId] is absent or has a false value (null, false, zero, empty);
    one missing field is enough. Otherwise it returns the two values of the
    response as a pair. *)
Theorem login_needs_both_fields {Net : Type} (transport : Transport Net)
    (w : World Net) (pod username password : string) (response : Response)
    (net : Net) (fields : gmap string json) :
  let request := login_request pod username password in
  let session_id := field fields "sessionId" in
  let org_id := field fields "currentOrgId" in
  let after := mkWorld net (events w ++ [Sent request]) in
  transport request (network w) = (Ok response, net) ->
  raise_for_status response = Ok tt ->
  json_body response = Ok (JObj fields) ->
  (truthy session_id = false \/ truthy org_id = false ->
   login transport pod username password w
     = (Raise (login_failed (JObj fields)), after)) /\
  (truthy session_id = true -> truthy org_id = true ->
   login transport pod username password w = (Ok (session_id, org_id), after)) /\
  ((exists e, fst (login transport pod username password w) = Raise e) <->
   (truthy session_id = false \/ truthy org_id = false)) /\
  (fields !! "sessionId" = None \/ fields !! "currentOrgId" = None ->
   fst (login transport pod username password w)
     = Raise (login_failed (JObj fields))).
Proof.
  intros request session_id org_id after Hsend Hstatus Hbody.
  rewrite (login_run transport w pod username password response net fields
             Hsend Hstatus Hbody).
  fold session_id org_id request after.
  assert (Hlack : fields !! "sessionId" = None \/ fields !! "currentOrgId" = None ->
                  truthy session_id = false \/ truthy org_id = false).
  { unfold session_id, org_id, field. intros [-> | ->]; auto. }
  destruct (truthy session_id) eqn:Hs, (truthy org_id) eqn:Ho; cbn;
    repeat split; try done; try (intros [|]; done); eauto.
  - intros [e He]. done.
  - intros H. destruct (Hlack H); done.
Qed.

Definition login_response (fields : gmap string json) : Response :=
  mkResponse 200 (Ok (JObj fields)) (fun _ => None) [].

Definition both_fields : gmap string json :=
  <["sessionId" := JStr "S1"]> (<["currentOrgId" := JStr "O1"]> ∅).

Definition session_only : gmap string json := <["sessionId" := JStr "S1"]> ∅.

Lemma login_needs_both_fields_witness :
  login (constant_transport (login_response both_fields)) "pod" "user" "secret" (mkWorld tt [])
  = (Ok (JStr "S1", JStr "O1"),
     mkWorld tt [Sent (login_request "pod" "user" "secret")]).
Proof.
  apply (proj1 (proj2 (login_needs_both_fields
           (constant_transport (login_response both_fields)) (mkWorld tt [])
           "pod" "user" "secret" (login_response both_fields) tt both_fields
           eq_refl eq_refl eq_refl))); reflexivity.
Defined.

(** C4, as the specification words it, fails on a response that carries a
    [sessionId] and no [currentOrgId]: it does not lack both fields, and
    [login] fails all the same. *)
Lemma login_counterexample :
  raise_for_status (login_response session_only) = Ok tt /\
  ~ (session_only !! "sessionId" = None /\ session_only !! "currentOrgId" = None) /\
  fst (login (constant_transport (login_response session_only)) "pod" "user" "secret"
         (mkWorld tt []))
  = Raise (login_failed (JObj session_only)).
Proof.
  split; [reflexivity |]. split; [| reflexivity].
  intros [H _]. vm_compute in H. discriminate.
Qed.

End Login.

(** ** Job polling *)

Section Polling.

Import ExtractIdmc.

Context (pod org_id jwt_token job_id : string) (poll_interval : Z).

Definition poll_request : Request :=
  mkRequest GET
    ("https://idmc-api." +:+ pod +:+
     ".informaticacloud.com/data360/observable/v1/jobs/" +:+ job_id)
    [("X-INFA-ORG-ID", org_id); ("Authorization", "Bearer " +:+ jwt_token)]
    None.

(** A server that answers the polls from a script, one response per
    request, and drops the connection when the script is over. *)
Definition scripted : Transport (list Response) :=
  fun _ net =>
    match net with
    | [] => (Raise ConnectionError, [])
    | response :: rest => (Ok response, rest)
    end.

Definition status_response (status : json) : Response :=
  mkResponse 200 (Ok (JObj (<["status" := status]> ∅))) (fun _ => None) [].


(** [n] rounds of a poll followed by a sleep. *)
Definition waited (n : nat) : list event :=
  concat (replicate n [Sent poll_request; Slept poll_interval]).








Lemma waited_succ (n : nat) :
  waited (S n) = [Sent poll_request; Slept poll_interval] ++ waited n.
Proof. reflexivity. Qed.






End Polling.



(** ** Table provisioning *)

(** What a call on the connection is, read off the statement text. *)
Inductive statement_kind : Type :=
  | DropStatement
  | CreateStatement
  | TruncateStatement
  | InsertStatement
  | OtherCall.

Definition kind_of_sql (sql : string) : statement_kind :=
  if String.prefix "DROP TABLE " sql then DropStatement
  else if String.prefix "CREATE TABLE " sql then CreateStatement
  else if String.prefix "TRUNCATE TABLE " sql then TruncateStatement
  else if String.prefix "INSERT INTO " sql then InsertStatement
  else OtherCall.

Definition kind_of (c : LoadExcel.call) : statement_kind :=
  match c with
  | LoadExcel.Execute sql | LoadExcel.ExecuteMany sql _ => kind_of_sql sql
  | LoadExcel.Commit => OtherCall
  end.

(** The statements among some calls, by kind and in order. *)
Definition statements (calls : list LoadExcel.call) : list statement_kind :=
  List.filter (fun k => match k with OtherCall => false | _ => true end)
    (map kind_of calls).

Section Provisioning.

Import LoadExcel.

Context {DB : Type} (drv : Driver DB) (lib : Library).

(** *** The log only grows *)

(** [m] adds calls to the log, all of them in [P], and removes none. *)
Definition appends {A} (P : call -> Prop) (m : M (World DB) A) : Prop :=
  forall w, exists calls, log (snd (m w)) = log w ++ calls /\ Forall P calls.

Lemma appends_ret {A} (P : call -> Prop) (a : A) : appends P (ret a).
Proof. intros w. exists []. by rewrite app_nil_r. Qed.

Lemma appends_raise {A} (P : call -> Prop) (e : exn) : appends P (@raise _ A e).
Proof. intros w. exists []. by rewrite app_nil_r. Qed.

Lemma appends_lift {A} (P : call -> Prop) (r : result A) : appends P (lift r).
Proof. intros w. exists []. by rewrite app_nil_r. Qed.

Lemma appends_bind {A B} (P : call -> Prop) (m : M (World DB) A)
    (k : A -> M (World DB) B) :
  appends P m -> (forall a, appends P (k a)) -> appends P (bind m k).
Proof.
  intros Hm Hk w. unfold bind. destruct (Hm w) as (calls & Hlog & Hcalls).
  destruct (m w) as [[a | e] w1]; cbn [snd] in Hlog.
  - destruct (Hk a w1) as (more & Hlog' & Hmore).
    exists (calls ++ more). rewrite Hlog', Hlog, app_assoc.
    split; [done | by apply Forall_app].
  - by exists calls.
Qed.

Lemma appends_for_each {A S} (P : call -> Prop) (body : S -> A -> M (World DB) S)
    (xs : list A) (acc : S) :
  (forall acc x, appends P (body acc x)) -> appends P (for_each body xs acc).
Proof.
  intros Hbody. revert acc. induction xs as [| x xs IH]; intros acc.
  - apply appends_ret.
  - cbn [for_each]. apply appends_bind; [apply Hbody | apply IH].
Qed.

Lemma appends_execute (P : call -> Prop) (sql : string) :
  P (Execute sql) -> appends P (cursor_execute drv sql).
Proof.
  intros HP w. exists [Execute sql]. unfold cursor_execute.
  destruct (drv_execute drv sql (database w)) as [[rows | e] d];
    (split; [done | by constructor]).
Qed.

Lemma appends_executemany (P : call -> Prop) (sql : string) (rows : list (list cell)) :
  P (ExecuteMany sql rows) -> appends P (cursor_executemany drv sql rows).
Proof.
  intros HP w. exists [ExecuteMany sql rows]. unfold cursor_executemany.
  destruct (drv_executemany drv sql rows (database w)) as [r d].
  split; [done | by constructor].
Qed.

Lemma appends_commit (P : call -> Prop) : P Commit -> appends P (conn_commit drv).
Proof.
  intros HP w. exists [Commit]. unfold conn_commit.
  destruct (drv_commit drv (database w)) as [r d].
  split; [done | by constructor].
Qed.

Lemma appends_fetchone (P : call -> Prop) : appends P (@cursor_fetchone DB).
Proof.
  intros w. exists []. unfold cursor_fetchone.
  destruct (rowset w); by rewrite app_nil_r.
Qed.

Lemma appends_fetchall (P : call -> Prop) : appends P (@cursor_fetchall DB).
Proof. intros w. exists []. by rewrite app_nil_r. Qed.

(** *** The statements and their kinds *)

Lemma prefix_other_letter (a b : ascii) (p s : string) :
  Ascii.eqb a b = false -> String.prefix (String a p) (String b s) = false.
Proof. intros H. by rewrite prefix_cons, H. Qed.

Lemma kind_of_catalog_query (select_line where_line : string) :
  kind_of (Execute (catalog_query select_line where_line)) = OtherCall.
Proof.
  unfold kind_of, kind_of_sql, catalog_query, newline. rewrite append_cons.
  by rewrite !prefix_other_letter.
Qed.

Lemma kind_of_show_tables (name : string) :
  kind_of (Execute ("SHOW TABLES IN " +:+ name)) = OtherCall.
Proof.
  unfold kind_of, kind_of_sql. rewrite append_cons.
  by rewrite !prefix_other_letter.
Qed.

Lemma prefix_app (p s : string) : String.prefix p (p +:+ s) = true.
Proof.
  induction p as [| a p IH]; [apply prefix_empty |].
  by rewrite append_cons, prefix_cons, Ascii.eqb_refl, IH.
Qed.

Lemma kind_of_drop (self : DBHandler) (table_name : string) :
  kind_of (Execute (drop_sql self table_name)) = DropStatement.
Proof. unfold kind_of, kind_of_sql, drop_sql. by rewrite prefix_app. Qed.

Lemma kind_of_create (self : DBHandler) (sql_types : gmap string string)
    (table_name : string) (df : DataFrame) :
  kind_of (Execute (create_sql self sql_types table_name df)) = CreateStatement.
Proof.
  unfold kind_of, kind_of_sql, create_sql. rewrite (prefix_app "CREATE TABLE ").
  rewrite append_cons. by rewrite prefix_other_letter.
Qed.

Lemma kind_of_truncate (self : DBHandler) (table_name : string) :
  kind_of (Execute (truncate_sql self table_name)) = TruncateStatement.
Proof.
  unfold kind_of, kind_of_sql, truncate_sql.
  rewrite (prefix_app "TRUNCATE TABLE ").
  rewrite append_cons. by rewrite !prefix_other_letter.
Qed.

Lemma kind_of_insert (self : DBHandler) (table_name : string) (df : DataFrame) :
  kind_of (ExecuteMany (insert_sql self table_name df) (itertuples df))
  = InsertStatement.
Proof.
  unfold kind_of, kind_of_sql, insert_sql. rewrite (prefix_app "INSERT INTO ").
  rewrite append_cons. by rewrite !prefix_other_letter.
Qed.

(** *** The existence query *)

Definition silent {A} (m : M (World DB) A) : Prop := appends (fun _ => False) m.

Lemma silent_log {A} (m : M (World DB) A) (w : World DB) :
  silent m -> log (snd (m w)) = log w.
Proof.
  intros Hm. destruct (Hm w) as (calls & -> & Hcalls).
  destruct calls as [| c calls]; [by rewrite app_nil_r |].
  by apply Forall_cons in Hcalls as [[] _].
Qed.

Lemma execute_then_silent {A} (sql : string) (k : M (World DB) A) (w : World DB) :
  silent k -> log (snd ((cursor_execute drv sql ;;; k) w)) = log w ++ [Execute sql].
Proof.
  intros Hk. unfold bind.
  assert (Hexec : log (snd (cursor_execute drv sql w)) = log w ++ [Execute sql]).
  { unfold cursor_execute.
    by destruct (drv_execute drv sql (database w)) as [[rows | e] d]. }
  destruct (cursor_execute drv sql w) as [[[] | e] w1]; cbn [snd] in *; [| done].
  by rewrite (silent_log k w1 Hk).
Qed.

Lemma silent_fetch_row :
  silent (row <- @cursor_fetchone DB ;;
          ret (match row with Some _ => true | None => false end)).
Proof.
  apply appends_bind; [apply appends_fetchone | intros; apply appends_ret].
Qed.

Lemma silent_fetch_tables (wanted : string) :
  silent (rows <- @cursor_fetchall DB ;;
          let tables := map (fun row => nth_error row 1) rows in
          match collect (fun t => match t with
                                  | Some t => Ok t
                                  | None => Raise IndexError
                                  end) tables with
          | Raise e => raise e
          | Ok cells =>
              names <- lift (collect (fun t => match t with
                                               | CStr t => Ok (lower lib t)
                                               | _ => Raise (AttributeError "lower")
                                               end) cells) ;;
              ret (existsb (String.eqb wanted) names)
          end).
Proof.
  apply appends_bind; [apply appends_fetchall |]. intros rows. cbn zeta.
  destruct (collect _ _); [| apply appends_raise].
  apply appends_bind; [apply appends_lift | intros; apply appends_ret].
Qed.

Lemma query_then_silent {A} (sql : string) (k : M (World DB) A) (w wq : World DB)
    (r : result A) :
  silent k -> (cursor_execute drv sql ;;; k) w = (r, wq) ->
  log wq = log w ++ [Execute sql].
Proof.
  intros Hk H. pose proof (execute_then_silent sql k w Hk) as Hlog.
  by rewrite H in Hlog.
Qed.

(** The existence check, when it returns, has made one call: a query that
    is neither a drop, a create nor a truncate. *)
Lemma table_exists_log (self : DBHandler) (table_name : string) (w wq : World DB)
    (present : bool) :
  table_exists drv lib self table_name w = (Ok present, wq) ->
  exists query, kind_of (Execute query) = OtherCall /\
                log wq = log w ++ [Execute query].
Proof.
  unfold table_exists. cbn zeta.
  repeat match goal with
         | |- context [if String.eqb ?a ?b then _ else _] =>
             destruct (String.eqb a b)
         end;
    try discriminate;
    try (unfold bind at 1, lift at 1;
         destruct (schema_upper lib self) as [owner | e]; [| discriminate]);
    intros H;
    apply query_then_silent in H;
      try (apply silent_fetch_row || apply silent_fetch_tables);
    (eexists; split; [| exact H];
     apply kind_of_catalog_query || apply kind_of_show_tables).
Qed.

(** Whatever its outcome, it adds no call other than such a query. *)
Lemma table_exists_appends (P : call -> Prop) (self : DBHandler) (table_name : string) :
  (forall c, kind_of c = OtherCall -> P c) ->
  appends P (table_exists drv lib self table_name).
Proof.
  intros HP. unfold table_exists. cbn zeta.
  assert (Hquiet : forall A (m : M (World DB) A), silent m -> appends P m).
  { intros A m Hm w. destruct (Hm w) as (calls & Hlog & Hcalls).
    exists calls. split; [done |]. eapply Forall_impl; [exact Hcalls |]. done. }
  repeat match goal with
         | |- context [if String.eqb ?a ?b then _ else _] =>
             destruct (String.eqb a b)
         end;
    try apply appends_raise;
    repeat first
      [ apply appends_bind; [apply appends_lift | intros ?]
      | apply appends_bind;
        [ apply appends_execute, HP;
          (apply kind_of_catalog_query || apply kind_of_show_tables)
        | intros ?; apply Hquiet;
          (apply silent_fetch_row || apply silent_fetch_tables) ] ].
Qed.

(** *** The methods of the handler *)

Lemma cursor_execute_log (sql : string) (w w' : World DB) (r : result unit) :
  cursor_execute drv sql w = (r, w') -> log w' = log w ++ [Execute sql].
Proof.
  unfold cursor_execute.
  destruct (drv_execute drv sql (database w)) as [[rows | e] d]; by intros [= <- <-].
Qed.

Lemma cursor_executemany_log (sql : string) (rows : list (list cell))
    (w w' : World DB) (r : result unit) :
  cursor_executemany drv sql rows w = (r, w') ->
  log w' = log w ++ [ExecuteMany sql rows].
Proof.
  unfold cursor_executemany.
  destruct (drv_executemany drv sql rows (database w)) as [r' d]; by intros [= <- <-].
Qed.

Lemma conn_commit_log (w w' : World DB) (r : result unit) :
  conn_commit drv w = (r, w') -> log w' = log w ++ [Commit].
Proof.
  unfold conn_commit.
  destruct (drv_commit drv (database w)) as [r' d]; by intros [= <- <-].
Qed.

Lemma execute_commit_log (sql : string) (w w' : World DB) (u : unit) :
  (cursor_execute drv sql ;;; conn_commit drv) w = (Ok u, w') ->
  log w' = log w ++ [Execute sql; Commit].
Proof.
  intros (a & w1 & Hexec & Hcommit) % bind_Ok.
  apply cursor_execute_log in Hexec. apply conn_commit_log in Hcommit.
  by rewrite Hcommit, Hexec, <- app_assoc.
Qed.

Lemma drop_table_if_needed_log (self : DBHandler) (table_name : string)
    (w w' : World DB) (u : unit) :
  drop_table self = true ->
  drop_table_if_needed drv self table_name w = (Ok u, w') ->
  log w' = log w ++ [Execute (drop_sql self table_name); Commit].
Proof.
  intros Hdrop. unfold drop_table_if_needed. rewrite Hdrop. cbn [negb].
  apply execute_commit_log.
Qed.

Lemma create_table_log (self : DBHandler) (sql_types : gmap string string)
    (table_name : string) (df : DataFrame) (w w' : World DB) (u : unit) :
  SQL_TYPE_MAPPING !! db_type self = Some sql_types ->
  create_table drv self table_name df w = (Ok u, w') ->
  log w' = log w ++ [Execute (create_sql self sql_types table_name df); Commit].
Proof.
  intros Htypes. unfold create_table. rewrite Htypes.
  apply execute_commit_log.
Qed.

Lemma insert_data_log (self : DBHandler) (table_name : string) (df : DataFrame)
    (w w' : World DB) (u : unit) :
  insert_data drv self table_name df w = (Ok u, w') ->
  log w' = log w ++ [ExecuteMany (insert_sql self table_name df) (itertuples df);
                     Commit].
Proof.
  unfold insert_data. cbn zeta.
  intros (a & w1 & Hexec & Hcommit) % bind_Ok.
  apply cursor_executemany_log in Hexec. apply conn_commit_log in Hcommit.
  by rewrite Hcommit, Hexec, <- app_assoc.
Qed.

(** With [drop_table] set, [truncate_table_if_needed] returns at once. *)
Lemma truncate_table_if_needed_drop (self : DBHandler) (table_name : string)
    (w : World DB) :
  drop_table self = true ->
  truncate_table_if_needed drv self table_name w = (Ok tt, w).
Proof. intros Hdrop. unfold truncate_table_if_needed. by rewrite Hdrop. Qed.

(** *** One sheet *)

(** The frame a sheet is loaded from: its columns after both passes. *)
Definition prepared (sql_types : gmap string string) (df : DataFrame) : DataFrame :=
  coerce_values lib sql_types (reparse_dates lib df).

(** The calls that follow the existence query for a table that exists, in
    drop mode: a drop and a create on the first encounter only, then the
    insert. *)
Definition drop_mode_calls (self : DBHandler) (sql_types : gmap string string)
    (table_name : string) (df : DataFrame) (first : bool) : list call :=
  (if first
   then [Execute (drop_sql self table_name); Commit;
         Execute (create_sql self sql_types table_name df); Commit]
   else []) ++
  [ExecuteMany (insert_sql self table_name df) (itertuples df); Commit].

Lemma process_sheet_drop_mode (self : DBHandler) (sql_types : gmap string string)
    (processed_tables processed_tables' : gset string) (sheet : string * DataFrame)
    (w w' : World DB) :
  let table_name := table_name_of (fst sheet) in
  drop_table self = true ->
  SQL_TYPE_MAPPING !! db_type self = Some sql_types ->
  fst (table_exists drv lib self table_name w) = Ok true ->
  process_sheet drv lib self processed_tables sheet w = (Ok processed_tables', w') ->
  exists query,
    kind_of (Execute query) = OtherCall /\
    log w' = log w ++ Execute query ::
               drop_mode_calls self sql_types table_name
                 (prepared sql_types (snd sheet))
                 (negb (bool_decide (table_name ∈ processed_tables))).
Proof.
  intros table_name Hdrop Htypes Hpresent. unfold process_sheet.
  rewrite Htypes. cbn zeta. fold table_name.
  fold (prepared sql_types (snd sheet)).
  intros (present & wq & Hquery & Hrest) % bind_Ok.
  rewrite Hquery in Hpresent. cbn [fst] in Hpresent. injection Hpresent as ->.
  apply table_exists_log in Hquery as (query & Hkind & Hlogq).
  exists query. split; [done |].
  rewrite Hdrop in Hrest.
  apply bind_Ok in Hrest as (processed & w1 & Hprov & Hrest).
  apply bind_Ok in Hrest as ([] & w2 & Hinsert & [= <- <-]).
  apply insert_data_log in Hinsert. rewrite Hinsert.
  unfold drop_mode_calls.
  destruct (bool_decide (table_name ∈ processed_tables)); cbn [negb] in *.
  - injection Hprov as <- <-. rewrite Hlogq, <- app_assoc. done.
  - apply bind_Ok in Hprov as ([] & w3 & Hd & Hprov).
    apply bind_Ok in Hprov as ([] & w4 & Hc & [= <- <-]).
    apply drop_table_if_needed_log in Hd; [| done].
    apply (create_table_log self sql_types) in Hc; [| done].
    rewrite Hc, Hd, Hlogq, <- !app_assoc. done.
Qed.

(** In drop mode every sheet that is processed leaves its table name in
    the set, whether the table existed or not. *)
Lemma process_sheet_records (self : DBHandler)
    (processed_tables processed_tables' : gset string) (sheet : string * DataFrame)
    (w w' : World DB) :
  drop_table self = true ->
  process_sheet drv lib self processed_tables sheet w = (Ok processed_tables', w') ->
  processed_tables' = processed_tables ∪ {[table_name_of (fst sheet)]}.
Proof.
  intros Hdrop. unfold process_sheet.
  destruct (SQL_TYPE_MAPPING !! db_type self) as [sql_types |]; [| discriminate].
  cbn zeta. rewrite Hdrop.
  intros (present & wq & _ & Hrest) % bind_Ok.
  apply bind_Ok in Hrest as (processed & w1 & Hprov & Hrest).
  apply bind_Ok in Hrest as ([] & w2 & _ & [= <- <-]).
  destruct present.
  - destruct (bool_decide_reflect
                (table_name_of (fst sheet) ∈ processed_tables)) as [Hin | Hnot];
      cbn [negb] in Hprov.
    + injection Hprov as <- <-. set_solver.
    + apply bind_Ok in Hprov as ([] & w3 & _ & Hprov).
      by apply bind_Ok in Hprov as ([] & w4 & _ & [= <- <-]).
  - by apply bind_Ok in Hprov as ([] & w3 & _ & [= <- <-]).
Qed.

Lemma for_each_sheet_records (self : DBHandler) (sheets : list (string * DataFrame))
    (processed_tables processed_tables' : gset string) (w w' : World DB) :
  drop_table self = true ->
  for_each (process_sheet drv lib self) sheets processed_tables w
    = (Ok processed_tables', w') ->
  processed_tables' =
    processed_tables ∪ list_to_set (map (fun sheet => table_name_of (fst sheet)) sheets).
Proof.
  intros Hdrop. revert processed_tables w.
  induction sheets as [| sheet sheets IH]; intros processed w.
  - cbn. intros [= <- <-]. set_solver.
  - cbn [for_each]. intros (processed1 & w1 & Hsheet & Hrest) % bind_Ok.
    apply process_sheet_records in Hsheet as ->; [| done].
    apply IH in Hrest as ->. cbn [map list_to_set]. set_solver.
Qed.

Lemma truncate_table_if_needed_appends (P : call -> Prop) (self : DBHandler)
    (table_name : string) :
  (drop_table self = false -> forall c, P c) ->
  appends P (truncate_table_if_needed drv self table_name).
Proof.
  intros HP. unfold truncate_table_if_needed.
  destruct (drop_table self); [apply appends_ret |].
  destruct (negb (truncate_table self)); [apply appends_ret |].
  destruct (existsb _ _); [| apply appends_raise].
  apply appends_bind; [apply appends_execute; auto |].
  intros _. apply appends_commit; auto.
Qed.

(** A sheet adds calls to the log and removes none; with [drop_table] set,
    none of the calls it adds is a truncate. *)
Lemma process_sheet_appends (P : call -> Prop) (self : DBHandler)
    (processed_tables : gset string) (sheet : string * DataFrame) :
  (forall c, kind_of c <> TruncateStatement -> P c) ->
  (drop_table self = false -> forall c, P c) ->
  appends P (process_sheet drv lib self processed_tables sheet).
Proof.
  intros HP Hall. unfold process_sheet.
  destruct (SQL_TYPE_MAPPING !! db_type self) as [sql_types |] eqn:Htypes;
    [| apply appends_raise].
  cbn zeta.
  assert (Hcommit : appends P (conn_commit drv))
    by (apply appends_commit, HP; done).
  assert (Hcreate : forall t df, appends P (create_table drv self t df)).
  { intros t df. unfold create_table. rewrite Htypes.
    apply appends_bind; [| done].
    apply appends_execute, HP. by rewrite kind_of_create. }
  assert (Hdrop : forall t, appends P (drop_table_if_needed drv self t)).
  { intros t. unfold drop_table_if_needed.
    destruct (negb (drop_table self)); [apply appends_ret |].
    apply appends_bind; [| done].
    apply appends_execute, HP. by rewrite kind_of_drop. }
  assert (Hinsert : forall t df, appends P (insert_data drv self t df)).
  { intros t df. unfold insert_data. cbn zeta.
    apply appends_bind; [| done].
    apply appends_executemany, HP. by rewrite kind_of_insert. }
  apply appends_bind.
  { apply table_exists_appends. intros c Hc. apply HP. by rewrite Hc. }
  intros present. apply appends_bind.
  2:{ intros processed. apply appends_bind; [apply Hinsert |].
      intros _. apply appends_ret. }
  destruct present.
  - destruct (drop_table self) eqn:Hd.
    + destruct (negb (bool_decide _)); [| apply appends_ret].
      apply appends_bind; [apply Hdrop |]. intros _.
      apply appends_bind; [apply Hcreate |]. intros _. apply appends_ret.
    + destruct (truncate_table self); [| apply appends_ret].
      destruct (negb (bool_decide _)); [| apply appends_ret].
      apply appends_bind; [| intros _; apply appends_ret].
      apply truncate_table_if_needed_appends. auto.
  - apply appends_bind; [apply Hcreate |]. intros _. apply appends_ret.
Qed.

(** *** The whole run *)

(** The sheets a run comes to, in order: those of every file that exists,
    up to the first file that cannot be opened as a workbook. *)
Fixpoint encounters (fs : gmap string node) (excel_files : list string)
  : list (string * DataFrame) :=
  match excel_files with
  | [] => []
  | file_path :: rest =>
      if negb (path_exists fs file_path) then encounters fs rest
      else
        match ExcelFile fs file_path with
        | Ok sheets => sheets ++ encounters fs rest
        | Raise _ => []
        end
  end.

(** The exception of that first file, if there is one. *)
Fixpoint broken_file (fs : gmap string node) (excel_files : list string)
  : option exn :=
  match excel_files with
  | [] => None
  | file_path :: rest =>
      if negb (path_exists fs file_path) then broken_file fs rest
      else
        match ExcelFile fs file_path with
        | Ok _ => broken_file fs rest
        | Raise e => Some e
        end
  end.

Definition finish (fs : gmap string node) (excel_files : list string)
    (processed_tables : gset string) : M (World DB) (gset string) :=
  match broken_file fs excel_files with
  | Some e => raise e
  | None => ret processed_tables
  end.

(** The loop over the files is the loop over the sheets it comes to. *)
Lemma process_files_as_sheets (fs : gmap string node) (self : DBHandler)
    (excel_files : list string) (processed_tables : gset string) (w : World DB) :
  for_each (process_file drv lib fs self) excel_files processed_tables w =
  bind (for_each (process_sheet drv lib self) (encounters fs excel_files)
          processed_tables)
       (finish fs excel_files) w.
Proof.
  revert processed_tables w.
  induction excel_files as [| file_path rest IH]; intros processed w; [done |].
  cbn [for_each encounters].
  assert (Hfinish : forall acc,
             negb (path_exists fs file_path) = true \/
             (exists sheets, ExcelFile fs file_path = Ok sheets) ->
             finish fs (file_path :: rest) acc = finish fs rest acc).
  { intros acc Hcase. unfold finish. cbn [broken_file].
    destruct (negb (path_exists fs file_path)); [done |].
    destruct Hcase as [? | [sheets ->]]; done. }
  unfold bind at 1. unfold process_file at 1.
  destruct (negb (path_exists fs file_path)) eqn:Hex.
  - unfold ret at 1. rewrite IH. unfold bind.
    destruct (for_each _ _ _ w) as [[acc | e] w1]; [| done].
    rewrite Hfinish; auto.
  - unfold bind at 1, lift at 1.
    destruct (ExcelFile fs file_path) as [sheets | e] eqn:Hopen.
    + unfold bind at 1. rewrite for_each_app. unfold bind at 1.
      destruct (for_each (process_sheet drv lib self) sheets processed w)
        as [[processed1 | e] w1]; [| done].
      rewrite IH. unfold bind.
      destruct (for_each _ _ _ w1) as [[acc | e] w2]; [| done].
      rewrite Hfinish; eauto.
    + unfold bind, finish. cbn [for_each broken_file]. by rewrite Hex, Hopen.
Qed.

Lemma process_excel_files_appends (P : call -> Prop) (fs : gmap string node)
    (excel_files : list string) (self : DBHandler) :
  (forall c, kind_of c <> TruncateStatement -> P c) ->
  (drop_table self = false -> forall c, P c) ->
  appends P (process_excel_files drv lib fs excel_files self).
Proof.
  intros HP Hall. unfold process_excel_files. cbn zeta.
  apply appends_bind; [| intros _; apply appends_ret].
  apply appends_for_each. intros processed file_path. unfold process_file.
  destruct (negb (path_exists fs file_path)); [apply appends_ret |].
  apply appends_bind; [apply appends_lift |]. intros sheets.
  apply appends_for_each. intros acc sheet. by apply process_sheet_appends.
Qed.

(** A run that has come to a sheet and processed it goes on from there. *)
Lemma run_through_sheet (fs : gmap string node) (self : DBHandler)
    (excel_files : list string) (before after : list (string * DataFrame))
    (sheet : string * DataFrame) (processed processed' : gset string)
    (w0 w w' : World DB) :
  encounters fs excel_files = before ++ sheet :: after ->
  for_each (process_sheet drv lib self) before ∅ w0 = (Ok processed, w) ->
  process_sheet drv lib self processed sheet w = (Ok processed', w') ->
  exists rest,
    log (snd (process_excel_files drv lib fs excel_files self w0)) = log w' ++ rest.
Proof.
  intros Henc Hbefore Hsheet. unfold process_excel_files. cbn zeta.
  unfold bind at 1. rewrite process_files_as_sheets, Henc.
  unfold bind at 1. rewrite for_each_app. unfold bind at 1. rewrite Hbefore.
  cbn [for_each]. unfold bind at 1. rewrite Hsheet.
  destruct (appends_for_each (fun _ => True) (process_sheet drv lib self) after
              processed') with (w := w') as (calls & Hlog & _).
  { intros acc x. by apply process_sheet_appends. }
  destruct (for_each (process_sheet drv lib self) after processed' w')
    as [[processed2 | e] w2]; cbn [snd] in Hlog.
  - unfold finish. destruct (broken_file fs excel_files); by exists calls.
  - by exists calls.
Qed.

(** *** Provisioning once per run *)

Lemma statements_drop_mode_calls (self : DBHandler) (sql_types : gmap string string)
    (table_name : string) (df : DataFrame) (first : bool) :
  statements (drop_mode_calls self sql_types table_name df first) =
  if first then [DropStatement; CreateStatement; InsertStatement]
  else [InsertStatement].
Proof.
  unfold statements, drop_mode_calls.
  destruct first; cbn [app map];
    rewrite ?kind_of_drop, ?kind_of_create, kind_of_insert; reflexivity.
Qed.

(** C2. In drop mode, when the run comes to a sheet whose table exists,
    the calls it makes after the existence query are: on the first
    encounter of the table name one drop, then one create, then the insert;
    on every later encounter the insert alone, with no drop, create or
    truncate. [before] are the sheets the run has come to earlier, and the
    calls of the sheet are a segment of the log of the whole run. *)
Theorem drop_mode_provisions_once (self : DBHandler) (sql_types : gmap string string)
    (fs : gmap string node) (excel_files : list string)
    (before after : list (string * DataFrame)) (sheet : string * DataFrame)
    (processed processed' : gset string) (w0 w w' : World DB) :
  let table_name := table_name_of (fst sheet) in
  let earlier := map (fun sheet => table_name_of (fst sheet)) before in
  let calls :=
    drop_mode_calls self sql_types table_name (prepared sql_types (snd sheet))
      (negb (bool_decide (table_name ∈ earlier))) in
  drop_table self = true ->
  SQL_TYPE_MAPPING !! db_type self = Some sql_types ->
  encounters fs excel_files = before ++ sheet :: after ->
  for_each (process_sheet drv lib self) before ∅ w0 = (Ok processed, w) ->
  fst (table_exists drv lib self table_name w) = Ok true ->
  process_sheet drv lib self processed sheet w = (Ok processed', w') ->
  exists query rest,
    kind_of (Execute query) = OtherCall /\
    log w' = log w ++ Execute query :: calls /\
    statements calls =
      (if bool_decide (table_name ∈ earlier) then [InsertStatement]
       else [DropStatement; CreateStatement; InsertStatement]) /\
    log (snd (process_excel_files drv lib fs excel_files self w0)) = log w' ++ rest.
Proof.
  intros table_name earlier calls Hdrop Htypes Henc Hbefore Hpresent Hsheet.
  destruct (process_sheet_drop_mode self sql_types processed processed' sheet w w'
              Hdrop Htypes Hpresent Hsheet) as (query & Hkind & Hlog).
  destruct (run_through_sheet fs self excel_files before after sheet
              processed processed' w0 w w' Henc Hbefore Hsheet) as (rest & Hrun).
  exists query, rest.
  apply for_each_sheet_records in Hbefore; [| done].
  assert (Hsame : bool_decide (table_name_of (fst sheet) ∈ processed)
                  = bool_decide (table_name ∈ earlier)).
  { apply bool_decide_ext. subst processed. unfold earlier, table_name.
    rewrite elem_of_union, elem_of_list_to_set. set_solver. }
  rewrite Hsame in Hlog. fold calls in Hlog.
  repeat split; try done.
  unfold calls. rewrite statements_drop_mode_calls.
  by destruct (bool_decide (table_name ∈ earlier)).
Qed.

(** C9. With [drop_table] set (and so with both flags set),
    [truncate_table_if_needed] returns without a call and leaves the world
    as it is; no run ever issues a truncate; and a table that exists and
    has not been met in the run is dropped and created again, then loaded. *)
Theorem drop_overrides_truncate (self : DBHandler) :
  drop_table self = true ->
  (forall table_name w,
      truncate_table_if_needed drv self table_name w = (Ok tt, w)) /\
  (forall fs excel_files w0,
      exists calls,
        log (snd (process_excel_files drv lib fs excel_files self w0))
          = log w0 ++ calls /\
        Forall (fun c => kind_of c <> TruncateStatement) calls) /\
  (forall sql_types processed processed' sheet w w',
      let table_name := table_name_of (fst sheet) in
      let df := prepared sql_types (snd sheet) in
      SQL_TYPE_MAPPING !! db_type self = Some sql_types ->
      table_name ∉ processed ->
      fst (table_exists drv lib self table_name w) = Ok true ->
      process_sheet drv lib self processed sheet w = (Ok processed', w') ->
      exists query,
        kind_of (Execute query) = OtherCall /\
        log w' = log w ++
          [Execute query;
           Execute (drop_sql self table_name); Commit;
           Execute (create_sql self sql_types table_name df); Commit;
           ExecuteMany (insert_sql self table_name df) (itertuples df); Commit]).
Proof.
  intros Hdrop. split; [| split].
  - intros table_name w. by apply truncate_table_if_needed_drop.
  - intros fs excel_files w0.
    apply (process_excel_files_appends
             (fun c => kind_of c <> TruncateStatement)); [done |].
    rewrite Hdrop. discriminate.
  - intros sql_types processed processed' sheet w w' table_name df
      Htypes Hnew Hpresent Hsheet.
    destruct (process_sheet_drop_mode self sql_types processed processed' sheet w w'
                Hdrop Htypes Hpresent Hsheet) as (query & Hkind & Hlog).
    exists query. split; [done |]. rewrite Hlog.
    fold table_name. rewrite bool_decide_eq_false_2 by done. reflexivity.
Qed.

End Provisioning.

(** *** A sample run *)

Section SampleRun.

Import LoadExcel.

Definition sales_frame : DataFrame :=
  [("region", mkSeries "object" [CStr "north"; CStr "south"]);
   ("amount", mkSeries "int64" [CInt 10; CInt 20])].

(** A workbook with two sheets that name the same table. *)
Definition sales_workbook : list (string * DataFrame) :=
  [("Sales", sales_frame); (" Sales ", sales_frame)].

Definition workbook_fs : gmap string node :=
  <["export.xlsx" := File 100%Q (Some sales_workbook)]> ∅.

Definition fresh_world : World unit := mkWorld tt [] [].

Definition sample_run (self : DBHandler) (sheets : list (string * DataFrame))
  : result (gset string) * World unit :=
  for_each (process_sheet accepting_driver plain_library self) sheets ∅ fresh_world.

Definition processed_of (r : result (gset string) * World unit) : gset string :=
  match fst r with
  | Ok processed => processed
  | Raise _ => ∅
  end.

Lemma drop_mode_provisions_once_witness :
  let self := postgres_handler true true in
  exists query,
    log (snd (sample_run self sales_workbook)) =
    log (snd (sample_run self [("Sales", sales_frame)])) ++
    [Execute query;
     ExecuteMany (insert_sql self "Sales" sales_frame) (itertuples sales_frame);
     Commit].
Proof.
  intros self.
  destruct (drop_mode_provisions_once accepting_driver plain_library self
              postgres_types workbook_fs ["export.xlsx"]
              [("Sales", sales_frame)] [] (" Sales ", sales_frame)
              (processed_of (sample_run self [("Sales", sales_frame)]))
              (processed_of (sample_run self sales_workbook))
              fresh_world
              (snd (sample_run self [("Sales", sales_frame)]))
              (snd (sample_run self sales_workbook))
              eq_refl eq_refl eq_refl
              ltac:(vm_compute; reflexivity)
              ltac:(vm_compute; reflexivity)
              ltac:(vm_compute; reflexivity))
    as (query & rest & Hkind & Hlog & Hstatements & Hrun).
  exists query. exact Hlog.
Defined.

Lemma drop_overrides_truncate_witness :
  let self := postgres_handler true true in
  truncate_table_if_needed accepting_driver self "Sales" fresh_world
    = (Ok tt, fresh_world) /\
  exists calls,
    log (snd (process_excel_files accepting_driver plain_library workbook_fs
                ["export.xlsx"] self fresh_world)) = [] ++ calls /\
    Forall (fun c => kind_of c <> TruncateStatement) calls.
Proof.
  intros self.
  destruct (drop_overrides_truncate accepting_driver plain_library self eq_refl)
    as (Hreturn & Hnever & _).
  split; [apply Hreturn | apply (Hnever workbook_fs ["export.xlsx"] fresh_world)].
Defined.

(** The statements of the sample run, in drop mode and in truncate mode:
    the second sheet of the same table only inserts. *)
Example sample_run_drop_mode :
  statements (log (snd (process_excel_files accepting_driver plain_library
                          workbook_fs ["export.xlsx"] (postgres_handler true true)
                          fresh_world)))
  = [DropStatement; CreateStatement; InsertStatement; InsertStatement].
Proof. reflexivity. Qed.

Example sample_run_truncate_mode :
  statements (log (snd (process_excel_files accepting_driver plain_library
                          workbook_fs ["export.xlsx"] (postgres_handler false true)
                          fresh_world)))
  = [TruncateStatement; InsertStatement; InsertStatement].
Proof. reflexivity. Qed.

End SampleRun.

(** * Further properties of the loader *)

(** ** The calls of one sheet, in every mode *)

Section SheetCalls.

Import LoadExcel.

Context {DB : Type} (drv : Driver DB) (lib : Library).

(** The calls between the existence query and the insert. [present] is
    the answer of the query and [known] says whether the table name is in
    the set of the run. *)
Definition provisioning_calls (self : DBHandler) (sql_types : gmap string string)
    (table_name : string) (df : DataFrame) (present known : bool) : list call :=
  if present then
    if drop_table self then
      if known then []
      else [Execute (drop_sql self table_name); Commit;
            Execute (create_sql self sql_types table_name df); Commit]
    else if truncate_table self then
      if known then [] else [Execute (truncate_sql self table_name); Commit]
    else []
  else [Execute (create_sql self sql_types table_name df); Commit].

(** The set of the run after the sheet. *)
Definition recorded (self : DBHandler) (processed_tables : gset string)
    (table_name : string) (present : bool) : gset string :=
  if present && negb (drop_table self) && negb (truncate_table self)
  then processed_tables
  else processed_tables ∪ {[table_name]}.

Lemma truncate_table_if_needed_log (self : DBHandler) (table_name : string)
    (w w' : World DB) (u : unit) :
  drop_table self = false -> truncate_table self = true ->
  truncate_table_if_needed drv self table_name w = (Ok u, w') ->
  log w' = log w ++ [Execute (truncate_sql self table_name); Commit].
Proof.
  intros Hdrop Htruncate. unfold truncate_table_if_needed.
  rewrite Hdrop, Htruncate. cbn [negb].
  destruct (existsb _ _); [| discriminate].
  apply execute_commit_log.
Qed.

(** A sheet that is processed without an exception has made the existence
    query, the calls its mode asks for, and one insert. *)
Lemma process_sheet_calls (self : DBHandler) (sql_types : gmap string string)
    (processed_tables processed_tables' : gset string) (sheet : string * DataFrame)
    (w w' : World DB) :
  let table_name := table_name_of (fst sheet) in
  let df := prepared lib sql_types (snd sheet) in
  SQL_TYPE_MAPPING !! db_type self = Some sql_types ->
  process_sheet drv lib self processed_tables sheet w = (Ok processed_tables', w') ->
  exists query present,
    fst (table_exists drv lib self table_name w) = Ok present /\
    kind_of (Execute query) = OtherCall /\
    processed_tables' = recorded self processed_tables table_name present /\
    log w' = log w ++ Execute query ::
      provisioning_calls self sql_types table_name df present
        (bool_decide (table_name ∈ processed_tables)) ++
      [ExecuteMany (insert_sql self table_name df) (itertuples df); Commit].
Proof.
  intros table_name df Htypes. unfold process_sheet.
  rewrite Htypes. cbn zeta. fold table_name. fold (prepared lib sql_types (snd sheet)).
  fold df.
  intros (present & wq & Hquery & Hrest) % bind_Ok.
  apply bind_Ok in Hrest as (processed & w1 & Hprov & Hrest).
  apply bind_Ok in Hrest as ([] & w2 & Hinsert & [= <- <-]).
  apply insert_data_log in Hinsert.
  pose proof Hquery as Hfst. apply (f_equal fst) in Hfst. cbn [fst] in Hfst.
  apply table_exists_log in Hquery as (query & Hkind & Hlogq).
  exists query, present. split; [done |]. split; [done |].
  rewrite Hinsert. unfold provisioning_calls, recorded.
  destruct present; cbn [andb].
  - destruct (drop_table self) eqn:Hdrop; cbn [negb andb].
    + destruct (bool_decide_reflect (table_name ∈ processed_tables)) as [Hin | Hnot];
        cbn [negb] in Hprov.
      * injection Hprov as <- <-. split; [set_solver |].
        by rewrite Hlogq, <- app_assoc.
      * apply bind_Ok in Hprov as ([] & w3 & Hd & Hprov).
        apply bind_Ok in Hprov as ([] & w4 & Hc & [= <- <-]).
        apply drop_table_if_needed_log in Hd; [| done].
        apply (create_table_log drv self sql_types) in Hc; [| done].
        split; [done |]. by rewrite Hc, Hd, Hlogq, <- !app_assoc.
    + destruct (truncate_table self) eqn:Htruncate; cbn [negb].
      * destruct (bool_decide_reflect (table_name ∈ processed_tables))
          as [Hin | Hnot]; cbn [negb] in Hprov.
        -- injection Hprov as <- <-. split; [set_solver |].
           by rewrite Hlogq, <- app_assoc.
        -- apply bind_Ok in Hprov as ([] & w3 & Ht & [= <- <-]).
           apply truncate_table_if_needed_log in Ht; [| done | done].
           split; [done |]. by rewrite Ht, Hlogq, <- !app_assoc.
      * injection Hprov as <- <-. split; [done |].
        by rewrite Hlogq, <- app_assoc.
  - apply bind_Ok in Hprov as ([] & w3 & Hc & [= <- <-]).
    apply (create_table_log drv self sql_types) in Hc; [| done].
    split; [done |]. by rewrite Hc, Hlogq, <- !app_assoc.
Qed.

End SheetCalls.

(** ** Truncate mode, missing tables, and what a run never does *)

Section ProvisioningModes.

Import LoadExcel.

Context {DB : Type} (drv : Driver DB) (lib : Library).

Lemma process_sheet_recorded (self : DBHandler)
    (processed_tables processed_tables' : gset string) (sheet : string * DataFrame)
    (w w' : World DB) :
  process_sheet drv lib self processed_tables sheet w = (Ok processed_tables', w') ->
  exists present,
    processed_tables' =
    recorded self processed_tables (table_name_of (fst sheet)) present.
Proof.
  intros Hsheet.
  destruct (SQL_TYPE_MAPPING !! db_type self) as [sql_types |] eqn:Htypes.
  - destruct (process_sheet_calls drv lib self sql_types _ _ _ _ _ Htypes Hsheet)
      as (query & present & _ & _ & Hrec & _).
    by exists present.
  - unfold process_sheet in Hsheet. rewrite Htypes in Hsheet. discriminate.
Qed.

(** With one of the two flags set, the set of the run is the set of the
    table names met so far. *)
Lemma for_each_sheet_recorded (self : DBHandler) (sheets : list (string * DataFrame))
    (processed_tables processed_tables' : gset string) (w w' : World DB) :
  drop_table self || truncate_table self = true ->
  for_each (process_sheet drv lib self) sheets processed_tables w
    = (Ok processed_tables', w') ->
  processed_tables' =
    processed_tables ∪ list_to_set (map (fun sheet => table_name_of (fst sheet)) sheets).
Proof.
  intros Hflag. revert processed_tables w.
  induction sheets as [| sheet sheets IH]; intros processed w.
  - cbn. intros [= <- <-]. set_solver.
  - cbn [for_each]. intros (processed1 & w1 & Hsheet & Hrest) % bind_Ok.
    apply process_sheet_recorded in Hsheet as (present & ->).
    apply IH in Hrest as ->. cbn [map list_to_set]. unfold recorded.
    destruct present, (drop_table self), (truncate_table self);
      cbn in Hflag |- *; try discriminate; set_solver.
Qed.

(** X1. In truncate mode (truncate_table set, drop_table not), when the
    run comes to a sheet whose table exists, the calls after the existence
    query are one truncate and the insert on the first encounter of the
    table name, and the insert alone on every later one. *)
Theorem truncate_mode_truncates_once (self : DBHandler)
    (sql_types : gmap string string) (fs : gmap string node)
    (excel_files : list string) (before after : list (string * DataFrame))
    (sheet : string * DataFrame) (processed processed' : gset string)
    (w0 w w' : World DB) :
  let table_name := table_name_of (fst sheet) in
  let earlier := map (fun sheet => table_name_of (fst sheet)) before in
  let df := prepared lib sql_types (snd sheet) in
  drop_table self = false -> truncate_table self = true ->
  SQL_TYPE_MAPPING !! db_type self = Some sql_types ->
  encounters fs excel_files = before ++ sheet :: after ->
  for_each (process_sheet drv lib self) before ∅ w0 = (Ok processed, w) ->
  fst (table_exists drv lib self table_name w) = Ok true ->
  process_sheet drv lib self processed sheet w = (Ok processed', w') ->
  exists query rest,
    kind_of (Execute query) = OtherCall /\
    log w' = log w ++ Execute query ::
      (if bool_decide (table_name ∈ earlier) then []
       else [Execute (truncate_sql self table_name); Commit]) ++
      [ExecuteMany (insert_sql self table_name df) (itertuples df); Commit] /\
    log (snd (process_excel_files drv lib fs excel_files self w0)) = log w' ++ rest.
Proof.
  intros table_name earlier df Hdrop Htruncate Htypes Henc Hbefore Hpresent Hsheet.
  destruct (process_sheet_calls drv lib self sql_types _ _ _ _ _ Htypes Hsheet)
    as (query & present & Hq & Hkind & _ & Hlog).
  fold table_name in Hq. rewrite Hpresent in Hq. injection Hq as <-.
  destruct (run_through_sheet drv lib fs self excel_files before after sheet
              processed processed' w0 w w' Henc Hbefore Hsheet) as (rest & Hrun).
  exists query, rest. split; [done |]. split; [| done].
  apply for_each_sheet_recorded in Hbefore; [| by rewrite Htruncate, orb_true_r].
  assert (Hsame : bool_decide (table_name_of (fst sheet) ∈ processed)
                  = bool_decide (table_name ∈ earlier)).
  { apply bool_decide_ext. subst processed. unfold earlier, table_name.
    rewrite elem_of_union, elem_of_list_to_set. set_solver. }
  rewrite Hlog, Hsame. unfold provisioning_calls. rewrite Hdrop, Htruncate.
  fold table_name df. by destruct (bool_decide (table_name ∈ earlier)).
Qed.

(** X2. A table that the existence query reports missing is created and
    then loaded, whatever the flags are and whether or not its name was met
    before; its name is in the set of the run afterwards. *)
Theorem missing_table_is_created (self : DBHandler) (sql_types : gmap string string)
    (processed processed' : gset string) (sheet : string * DataFrame)
    (w w' : World DB) :
  let table_name := table_name_of (fst sheet) in
  let df := prepared lib sql_types (snd sheet) in
  SQL_TYPE_MAPPING !! db_type self = Some sql_types ->
  fst (table_exists drv lib self table_name w) = Ok false ->
  process_sheet drv lib self processed sheet w = (Ok processed', w') ->
  processed' = processed ∪ {[table_name]} /\
  exists query,
    kind_of (Execute query) = OtherCall /\
    log w' = log w ++
      [Execute query;
       Execute (create_sql self sql_types table_name df); Commit;
       ExecuteMany (insert_sql self table_name df) (itertuples df); Commit].
Proof.
  intros table_name df Htypes Hmissing Hsheet.
  destruct (process_sheet_calls drv lib self sql_types _ _ _ _ _ Htypes Hsheet)
    as (query & present & Hq & Hkind & Hrec & Hlog).
  fold table_name in Hq, Hrec. rewrite Hmissing in Hq. injection Hq as <-.
  split; [exact Hrec |]. exists query. split; [done |]. exact Hlog.
Qed.

(** The calls a mode allows: a drop only with drop_table set, a truncate
    only with truncate_table set and drop_table not. *)
Definition allowed (self : DBHandler) (c : call) : Prop :=
  (kind_of c = DropStatement -> drop_table self = true) /\
  (kind_of c = TruncateStatement ->
   truncate_table self = true /\ drop_table self = false).

Lemma process_sheet_allowed (self : DBHandler) (processed_tables : gset string)
    (sheet : string * DataFrame) :
  appends (allowed self) (process_sheet drv lib self processed_tables sheet).
Proof.
  unfold process_sheet.
  destruct (SQL_TYPE_MAPPING !! db_type self) as [sql_types |] eqn:Htypes;
    [| apply appends_raise].
  cbn zeta.
  assert (Hother : forall c, kind_of c <> DropStatement ->
                             kind_of c <> TruncateStatement -> allowed self c).
  { intros c Hd Ht. split; intros H; by rewrite H in *. }
  assert (Hcommit : appends (allowed self) (conn_commit drv))
    by (apply appends_commit, Hother; done).
  assert (Hcreate : forall t df, appends (allowed self) (create_table drv self t df)).
  { intros t df. unfold create_table. rewrite Htypes.
    apply appends_bind; [| done].
    apply appends_execute, Hother; by rewrite kind_of_create. }
  apply appends_bind.
  { apply table_exists_appends. intros c Hc. apply Hother; by rewrite Hc. }
  intros present. apply appends_bind.
  2:{ intros processed. apply appends_bind; [| intros _; apply appends_ret].
      unfold insert_data. cbn zeta. apply appends_bind; [| done].
      apply appends_executemany, Hother; by rewrite kind_of_insert. }
  destruct present; [| apply appends_bind; [apply Hcreate | intros _; apply appends_ret]].
  destruct (drop_table self) eqn:Hdrop.
  - destruct (negb (bool_decide _)); [| apply appends_ret].
    apply appends_bind; [| intros _; apply appends_bind;
                           [apply Hcreate | intros _; apply appends_ret]].
    unfold drop_table_if_needed. rewrite Hdrop. cbn [negb].
    apply appends_bind; [| done].
    apply appends_execute. split; [done |]. by rewrite kind_of_drop.
  - destruct (truncate_table self) eqn:Htruncate; [| apply appends_ret].
    destruct (negb (bool_decide _)); [| apply appends_ret].
    apply appends_bind; [| intros _; apply appends_ret].
    unfold truncate_table_if_needed. rewrite Hdrop, Htruncate. cbn [negb].
    destruct (existsb _ _); [| apply appends_raise].
    apply appends_bind; [| done].
    apply appends_execute. split; [by rewrite kind_of_truncate | done].
Qed.

(** X3. Whatever the driver answers and however the run ends, a run issues
    a DROP statement only when drop_table is set, and a TRUNCATE statement
    only when truncate_table is set and drop_table is not: with neither flag
    the tables that exist are only appended to. *)
Theorem drop_and_truncate_need_their_flags (self : DBHandler)
    (fs : gmap string node) (excel_files : list string) (w0 : World DB) :
  exists calls,
    log (snd (process_excel_files drv lib fs excel_files self w0)) = log w0 ++ calls /\
    Forall (fun c =>
              (kind_of c = DropStatement -> drop_table self = true) /\
              (kind_of c = TruncateStatement ->
               truncate_table self = true /\ drop_table self = false)) calls.
Proof.
  revert w0. change (appends (allowed self)
                       (process_excel_files drv lib fs excel_files self)).
  unfold process_excel_files. cbn zeta.
  apply appends_bind; [| intros _; apply appends_ret].
  apply appends_for_each. intros processed file_path. unfold process_file.
  destruct (negb (path_exists fs file_path)); [apply appends_ret |].
  apply appends_bind; [apply appends_lift |]. intros sheets.
  apply appends_for_each. intros acc sheet. apply process_sheet_allowed.
Qed.

End ProvisioningModes.

(** ** Whole runs: skipped files, unsupported dialects, what is inserted *)

Section WholeRuns.

Import LoadExcel.

Context {DB : Type} (drv : Driver DB) (lib : Library).

Lemma for_each_skips_missing (fs : gmap string node) (self : DBHandler)
    (excel_files : list string) (processed_tables : gset string) (w : World DB) :
  for_each (process_file drv lib fs self) excel_files processed_tables w =
  for_each (process_file drv lib fs self)
    (List.filter (path_exists fs) excel_files) processed_tables w.
Proof.
  revert processed_tables w.
  induction excel_files as [| file_path rest IH]; intros processed w; [done |].
  cbn [List.filter]. destruct (path_exists fs file_path) eqn:Hex.
  - cbn [for_each]. unfold bind.
    destruct (process_file drv lib fs self processed file_path w)
      as [[processed1 | e] w1]; [apply IH | done].
  - cbn [for_each]. unfold bind at 1. unfold process_file at 1.
    rewrite Hex. cbn [negb]. unfold ret at 1. apply IH.
Qed.

Lemma filter_nothing_exists (fs : gmap string node) (excel_files : list string) :
  (forall file_path, file_path ∈ excel_files -> path_exists fs file_path = false) ->
  List.filter (path_exists fs) excel_files = [].
Proof.
  induction excel_files as [| file_path rest IH]; intros Hnone; [done |].
  cbn [List.filter]. rewrite (Hnone file_path) by set_solver.
  apply IH. intros p Hp. apply Hnone. set_solver.
Qed.

(** X4. Paths that do not exist are passed over: a run over a list of
    paths is the run over the paths of the list that exist, and a run over
    paths none of which exists returns without a call. *)
Theorem missing_files_are_skipped (fs : gmap string node) (self : DBHandler)
    (excel_files : list string) (w0 : World DB) :
  process_excel_files drv lib fs excel_files self w0 =
  process_excel_files drv lib fs (List.filter (path_exists fs) excel_files) self w0 /\
  ((forall file_path, file_path ∈ excel_files -> path_exists fs file_path = false) ->
   process_excel_files drv lib fs excel_files self w0 = (Ok tt, w0)).
Proof.
  assert (Hskip : process_excel_files drv lib fs excel_files self w0 =
                  process_excel_files drv lib fs
                    (List.filter (path_exists fs) excel_files) self w0).
  { unfold process_excel_files. cbn zeta. unfold bind.
    by rewrite for_each_skips_missing. }
  split; [exact Hskip |].
  intros Hnone. rewrite Hskip.
  by rewrite (filter_nothing_exists fs excel_files Hnone).
Qed.

Lemma process_excel_files_as_sheets (fs : gmap string node) (self : DBHandler)
    (excel_files : list string) (w0 : World DB) :
  process_excel_files drv lib fs excel_files self w0 =
  bind (bind (for_each (process_sheet drv lib self) (encounters fs excel_files) ∅)
          (finish fs excel_files))
       (fun _ => ret tt) w0.
Proof.
  unfold process_excel_files. cbn zeta. unfold bind at 1 3.
  by rewrite process_files_as_sheets.
Qed.

(** X5. With a db_type that [SQL_TYPE_MAPPING] does not list, a run makes
    no call on the connection and leaves the world as it found it; as soon
    as there is a sheet to process it ends with a [KeyError]. *)
Theorem unknown_dialect_makes_no_call (self : DBHandler) (fs : gmap string node)
    (excel_files : list string) (w0 : World DB) :
  SQL_TYPE_MAPPING !! db_type self = None ->
  snd (process_excel_files drv lib fs excel_files self w0) = w0 /\
  (encounters fs excel_files <> [] ->
   fst (process_excel_files drv lib fs excel_files self w0)
   = Raise (KeyError (db_type self))).
Proof.
  intros Hnone. rewrite process_excel_files_as_sheets.
  destruct (encounters fs excel_files) as [| sheet rest].
  - cbn [for_each]. unfold bind, ret, finish.
    destruct (broken_file fs excel_files); by split.
  - cbn [for_each]. unfold bind, process_sheet.
    rewrite Hnone. by split.
Qed.

(** The bulk inserts among some calls. *)
Definition bulk_inserts (calls : list call) : list call :=
  List.filter (fun c => match c with ExecuteMany _ _ => true | _ => false end) calls.

(** The insert of a sheet: its statement and its rows. *)
Definition insert_of (self : DBHandler) (sql_types : gmap string string)
    (sheet : string * DataFrame) : call :=
  let table_name := table_name_of (fst sheet) in
  let df := prepared lib sql_types (snd sheet) in
  ExecuteMany (insert_sql self table_name df) (itertuples df).

Lemma bulk_inserts_app (a b : list call) :
  bulk_inserts (a ++ b) = bulk_inserts a ++ bulk_inserts b.
Proof. apply List.filter_app. Qed.

Lemma bulk_inserts_provisioning (self : DBHandler) (sql_types : gmap string string)
    (table_name : string) (df : DataFrame) (present known : bool) :
  bulk_inserts (provisioning_calls self sql_types table_name df present known) = [].
Proof.
  unfold provisioning_calls.
  by destruct present, (drop_table self), (truncate_table self), known.
Qed.

Lemma for_each_sheet_inserts (self : DBHandler) (sql_types : gmap string string)
    (sheets : list (string * DataFrame)) (processed processed' : gset string)
    (w w' : World DB) :
  SQL_TYPE_MAPPING !! db_type self = Some sql_types ->
  for_each (process_sheet drv lib self) sheets processed w = (Ok processed', w') ->
  bulk_inserts (log w') =
  bulk_inserts (log w) ++ map (insert_of self sql_types) sheets.
Proof.
  intros Htypes. revert processed w.
  induction sheets as [| sheet sheets IH]; intros processed w.
  - cbn. intros [= <- <-]. by rewrite app_nil_r.
  - cbn [for_each]. intros (processed1 & w1 & Hsheet & Hrest) % bind_Ok.
    apply IH in Hrest. rewrite Hrest.
    destruct (process_sheet_calls drv lib self sql_types _ _ _ _ _ Htypes Hsheet)
      as (query & present & _ & _ & _ & ->).
    rewrite !bulk_inserts_app. cbn [map].
    change (Execute query :: ?l) with ([Execute query] ++ l).
    rewrite !bulk_inserts_app, bulk_inserts_provisioning.
    cbn. by rewrite <- app_assoc.
Qed.

(** X6. In a run that completes, every file that exists was opened, and
    the bulk inserts of the run are exactly the inserts of the sheets it
    came to, one per sheet, in the order of the files and of the sheets in
    each file, each with the rows of its sheet. *)
Theorem inserts_follow_the_sheets (self : DBHandler) (sql_types : gmap string string)
    (fs : gmap string node) (excel_files : list string) (w0 w' : World DB) :
  SQL_TYPE_MAPPING !! db_type self = Some sql_types ->
  process_excel_files drv lib fs excel_files self w0 = (Ok tt, w') ->
  broken_file fs excel_files = None /\
  bulk_inserts (log w') =
  bulk_inserts (log w0) ++ map (insert_of self sql_types) (encounters fs excel_files).
Proof.
  intros Htypes. unfold process_excel_files. cbn zeta.
  intros (processed & w1 & Hrun & [= <-]) % bind_Ok.
  rewrite process_files_as_sheets in Hrun.
  apply bind_Ok in Hrun as (processed1 & w2 & Hsheets & Hfinish).
  unfold finish in Hfinish.
  destruct (broken_file fs excel_files); [discriminate |].
  injection Hfinish as _ <-. split; [done |].
  by apply (for_each_sheet_inserts self sql_types) in Hsheets.
Qed.

End WholeRuns.

(** *** Sample runs in the other modes *)

Section OtherSampleRuns.

Import LoadExcel.

(** A driver over a database without tables: every query returns no row. *)
Definition empty_driver : Driver unit := {|
  drv_execute := fun _ d => (Ok [], d);
  drv_executemany := fun _ _ d => (Ok tt, d);
  drv_commit := fun d => (Ok tt, d)
|}.

Definition sqlite_handler : DBHandler := {|
  db_type := "sqlite";
  schema := None;
  truncate_table := false;
  drop_table := true;
  debug := false
|}.

Lemma truncate_mode_truncates_once_witness :
  let self := postgres_handler false true in
  exists query,
    log (snd (sample_run self sales_workbook)) =
    log (snd (sample_run self [("Sales", sales_frame)])) ++
    [Execute query;
     ExecuteMany (insert_sql self "Sales" sales_frame) (itertuples sales_frame);
     Commit].
Proof.
  intros self.
  destruct (truncate_mode_truncates_once accepting_driver plain_library self
              postgres_types workbook_fs ["export.xlsx"]
              [("Sales", sales_frame)] [] (" Sales ", sales_frame)
              (processed_of (sample_run self [("Sales", sales_frame)]))
              (processed_of (sample_run self sales_workbook))
              fresh_world
              (snd (sample_run self [("Sales", sales_frame)]))
              (snd (sample_run self sales_workbook))
              eq_refl eq_refl eq_refl eq_refl
              ltac:(vm_compute; reflexivity)
              ltac:(vm_compute; reflexivity)
              ltac:(vm_compute; reflexivity))
    as (query & rest & Hkind & Hlog & Hrun).
  exists query. exact Hlog.
Defined.

Lemma missing_table_is_created_witness :
  let self := postgres_handler true true in
  let run := process_sheet empty_driver plain_library self {["Sales"]}
               ("Sales", sales_frame) fresh_world in
  exists query,
    log (snd run) =
    [Execute query;
     Execute (create_sql self postgres_types "Sales" sales_frame); Commit;
     ExecuteMany (insert_sql self "Sales" sales_frame) (itertuples sales_frame);
     Commit].
Proof.
  intros self run.
  destruct (missing_table_is_created empty_driver plain_library self postgres_types
              {["Sales"]} (processed_of run) ("Sales", sales_frame)
              fresh_world (snd run)
              eq_refl ltac:(vm_compute; reflexivity) ltac:(vm_compute; reflexivity))
    as (_ & query & _ & Hlog).
  exists query. exact Hlog.
Defined.

Lemma missing_files_are_skipped_witness :
  process_excel_files accepting_driver plain_library workbook_fs
    ["old.xlsx"; "gone.xls"] (postgres_handler true false) fresh_world
  = (Ok tt, fresh_world).
Proof.
  apply (proj2 (missing_files_are_skipped accepting_driver plain_library workbook_fs
                  (postgres_handler true false) ["old.xlsx"; "gone.xls"] fresh_world)).
  intros file_path. rewrite !elem_of_cons, elem_of_nil.
  intros [-> | [-> | []]]; reflexivity.
Defined.

Lemma unknown_dialect_makes_no_call_witness :
  process_excel_files accepting_driver plain_library workbook_fs ["export.xlsx"]
    sqlite_handler fresh_world
  = (Raise (KeyError "sqlite"), fresh_world).
Proof.
  destruct (unknown_dialect_makes_no_call accepting_driver plain_library
              sqlite_handler workbook_fs ["export.xlsx"] fresh_world eq_refl)
    as [Hworld Hraise].
  apply injective_projections; cbn [fst snd]; [| exact Hworld].
  apply Hraise. discriminate.
Defined.

Lemma inserts_follow_the_sheets_witness :
  let self := postgres_handler false false in
  let run := process_excel_files accepting_driver plain_library workbook_fs
               ["missing.xlsx"; "export.xlsx"] self fresh_world in
  bulk_inserts (log (snd run)) =
  [ExecuteMany (insert_sql self "Sales" sales_frame) (itertuples sales_frame);
   ExecuteMany (insert_sql self "Sales" sales_frame) (itertuples sales_frame)].
Proof.
  intros self run.
  apply (proj2 (inserts_follow_the_sheets accepting_driver plain_library self
                  postgres_types workbook_fs ["missing.xlsx"; "export.xlsx"]
                  fresh_world (snd run) eq_refl ltac:(vm_compute; reflexivity))).
Defined.

End OtherSampleRuns.

(** ** The existence check and the qualified name *)

Section HandlerFacts.

Import LoadExcel.

Context {DB : Type} (drv : Driver DB) (lib : Library).

Definition supported_dialects : list string :=
  ["sqlserver"; "oracle"; "snowflake"; "databricks"; "mysql"; "postgres"].

Lemma eqb_not_listed (a b : string) (l : list string) :
  a ∉ l -> b ∈ l -> String.eqb a b = false.
Proof. intros Ha Hb. apply String.eqb_neq. intros ->. done. Qed.

(** X7. The existence check makes exactly one call when it returns, a
    query that is no drop, create or truncate (and no commit). For a
    db_type outside the six dialects it raises [NotImplementedError], and
    for oracle and snowflake without a schema an attribute error, in both
    cases before any call and with the world unchanged. *)
Theorem table_exists_queries_once (self : DBHandler) (table_name : string)
    (w : World DB) :
  (forall present w',
      table_exists drv lib self table_name w = (Ok present, w') ->
      exists query,
        kind_of (Execute query) = OtherCall /\ log w' = log w ++ [Execute query]) /\
  (db_type self ∉ supported_dialects ->
   table_exists drv lib self table_name w =
   (Raise (NotImplementedError
             ("Table check not implemented for " +:+ db_type self)), w)) /\
  (db_type self ∈ ["oracle"; "snowflake"] -> schema self = None ->
   table_exists drv lib self table_name w = (Raise (AttributeError "upper"), w)).
Proof.
  split; [| split].
  - intros present w'. apply table_exists_log.
  - intros Hnot. unfold table_exists. cbn zeta.
    rewrite !(eqb_not_listed (db_type self) _ supported_dialects Hnot)
      by (unfold supported_dialects; set_solver).
    reflexivity.
  - intros Hin Hschema. unfold table_exists, schema_upper. cbn zeta.
    rewrite Hschema.
    repeat rewrite elem_of_cons in Hin. rewrite elem_of_nil in Hin.
    destruct Hin as [-> | [-> | []]]; reflexivity.
Qed.

Lemma append_inj_l (p a b : string) : p +:+ a = p +:+ b -> a = b.
Proof.
  induction p as [| c p IH]; [done |].
  rewrite !append_cons. intros [= H]. by apply IH.
Qed.

Lemma append_inj_r (a b q : string) : a +:+ q = b +:+ q -> a = b.
Proof.
  revert b. induction a as [| c a IH]; intros b H.
  - apply (f_equal String.length) in H. rewrite !length_append in H.
    destruct b; [done | cbn in H; lia].
  - destruct b as [| d b].
    + apply (f_equal String.length) in H.
      rewrite !length_append in H. cbn in H. lia.
    + rewrite !append_cons in H. injection H as -> H. f_equal. by apply IH.
Qed.

(** X8. The qualified name determines the table name: for one handler,
    two table names with the same qualified name are the same name, so two
    different tables never share the name used in the statements. *)
Theorem format_table_name_injective (self : DBHandler) (a b : string) :
  format_table_name self a = format_table_name self b -> a = b.
Proof.
  unfold format_table_name.
  destruct (truthy_opt (schema self)); intros H.
  - do 5 (apply append_inj_l in H). by apply append_inj_r in H.
  - apply append_inj_l in H. by apply append_inj_r in H.
Qed.

End HandlerFacts.

Lemma table_exists_queries_once_witness :
  LoadExcel.table_exists accepting_driver plain_library sqlite_handler "Sales" fresh_world
  = (Raise (NotImplementedError "Table check not implemented for sqlite"),
     fresh_world).
Proof.
  apply (proj1 (proj2 (table_exists_queries_once accepting_driver plain_library
                         sqlite_handler "Sales" fresh_world))).
  unfold supported_dialects. cbn [LoadExcel.db_type sqlite_handler].
  rewrite !elem_of_cons, elem_of_nil.
  intros [H | [H | [H | [H | [H | [H | []]]]]]]; discriminate.
Defined.

Lemma format_table_name_injective_witness :
  LoadExcel.table_name_of "Q1 Sales" = LoadExcel.table_name_of " Q1 Sales ".
Proof.
  apply (format_table_name_injective (postgres_handler true true)). reflexivity.
Defined.

(** ** How the columns are rewritten before loading *)

Section Coercion.

Import LoadExcel.

Context (lib : Library).

(** [upper] leaves the SQL types of the six dialects as they are: they
    are written in capitals. *)
Definition upper_keeps_types : Prop :=
  forall sql_types key sql_type,
    sql_types ∈ dialect_maps -> sql_types !! key = Some sql_type ->
    upper lib sql_type = sql_type.

Lemma coerce_column_text (sql_types : gmap string string) (col : Series)
    (text_type : string) :
  upper_keeps_types -> sql_types ∈ dialect_maps ->
  sql_types !! "object" = Some text_type ->
  infer_sql_type col sql_types = text_type ->
  coerce_column lib sql_types col = apply_str lib col.
Proof.
  intros Hupper Hin Hobject Hinfer. unfold coerce_column. cbn zeta.
  rewrite Hinfer, (Hupper sql_types "object" text_type Hin Hobject).
  revert Hobject. clear -Hin. unfold dialect_maps in Hin.
  repeat rewrite elem_of_cons in Hin. rewrite elem_of_nil in Hin.
  destruct Hin as [-> | [-> | [-> | [-> | [-> | [-> | []]]]]]];
    intros [= <-]; reflexivity.
Qed.

(** X9. In each of the six dialects, and with [upper] leaving the SQL
    types unchanged: a column with a missing value, a column of dtype
    [object] and a column of a dtype the map does not list are rewritten as
    text; a column of dtype [datetime64[ns]] is rewritten as ISO dates; a
    column of dtype [int64], [float64] or [bool] only has its missing values
    replaced. *)
Theorem coerce_column_by_kind (dialect : string) (sql_types : gmap string string)
    (col : Series) :
  upper_keeps_types ->
  SQL_TYPE_MAPPING !! dialect = Some sql_types ->
  (isnull_any col = true \/ dtype col = "object" \/ sql_types !! dtype col = None ->
   coerce_column lib sql_types col = apply_str lib col) /\
  (isnull_any col = false -> dtype col = "datetime64[ns]" ->
   coerce_column lib sql_types col =
   apply_isoformat lib (to_datetime_coerce lib col)) /\
  (isnull_any col = false -> dtype col ∈ ["int64"; "float64"; "bool"] ->
   coerce_column lib sql_types col = apply_none lib col).
Proof.
  intros Hupper Hin % SQL_TYPE_MAPPING_values.
  destruct (dialect_has_object sql_types Hin) as [text_type Hobject].
  split; [| split].
  - intros Hcase. apply (coerce_column_text sql_types col text_type); try done.
    unfold infer_sql_type, dict_get. rewrite Hobject.
    destruct (isnull_any col); [done |].
    destruct Hcase as [? | [-> | ->]]; [done | | done].
    rewrite Hobject.
    assert (text_type <> "") by eauto using dialect_entries_nonempty.
    by destruct (String.eqb_spec text_type "").
  - intros Hnull Hdtype. unfold coerce_column, infer_sql_type. cbn zeta.
    rewrite Hnull, Hdtype.
    assert (Hdate : is_Some (sql_types !! "datetime64[ns]")).
    { revert Hin. clear. unfold dialect_maps.
      repeat rewrite elem_of_cons. rewrite elem_of_nil.
      intros [-> | [-> | [-> | [-> | [-> | [-> | []]]]]]]; by eexists. }
    destruct Hdate as [date_type Hdate]. rewrite Hdate.
    assert (date_type <> "") by eauto using dialect_entries_nonempty.
    destruct (String.eqb_spec date_type ""); [done |].
    rewrite (Hupper sql_types _ date_type Hin Hdate).
    revert Hdate. clear -Hin. unfold dialect_maps in Hin.
    repeat rewrite elem_of_cons in Hin. rewrite elem_of_nil in Hin.
    destruct Hin as [-> | [-> | [-> | [-> | [-> | [-> | []]]]]]];
      intros [= <-]; reflexivity.
  - intros Hnull Hdtype. unfold coerce_column, infer_sql_type. cbn zeta.
    rewrite Hnull.
    assert (Hentry : exists sql_type,
               sql_types !! dtype col = Some sql_type /\
               sql_type ∈ ["BIGINT"; "NUMBER"; "FLOAT"; "DOUBLE"; "DOUBLE PRECISION";
                           "BIT"; "NUMBER(1)"; "BOOLEAN"; "TINYINT(1)"]).
    { revert Hin Hdtype. clear. unfold dialect_maps.
      repeat rewrite elem_of_cons. rewrite !elem_of_nil.
      intros [-> | [-> | [-> | [-> | [-> | [-> | []]]]]]] [-> | [-> | [-> | []]]];
        eexists; (split; [reflexivity |]); set_solver. }
    destruct Hentry as (sql_type & Hentry & Hkind). rewrite Hentry.
    assert (sql_type <> "") by eauto using dialect_entries_nonempty.
    destruct (String.eqb_spec sql_type ""); [done |].
    rewrite (Hupper sql_types _ sql_type Hin Hentry).
    clear -Hkind. repeat rewrite elem_of_cons in Hkind. rewrite elem_of_nil in Hkind.
    destruct Hkind as [-> | [-> | [-> | [-> | [-> | [-> | [-> | [-> | [-> | []]]]]]]]]];
      reflexivity.
Qed.

End Coercion.

Lemma coerce_column_by_kind_witness :
  LoadExcel.coerce_column plain_library LoadExcel.oracle_types
    (mkSeries "datetime64[ns]" [CTimestamp 0])
  = apply_isoformat plain_library
      (to_datetime_coerce plain_library (mkSeries "datetime64[ns]" [CTimestamp 0])).
Proof.
  apply (proj1 (proj2 (coerce_column_by_kind plain_library "oracle"
                         LoadExcel.oracle_types
                         (mkSeries "datetime64[ns]" [CTimestamp 0])
                         ltac:(intros ? ? ? ? ?; reflexivity) eq_refl)));
    reflexivity.
Defined.

(** * load_excel.py: from the command line to the list of workbooks *)

Module LoadExcelInput.

Import LoadExcel.

(** [s.lower()]. Below code point 256 the capital letters are A to Z and
    the accented capitals from 192 to 222 without the multiplication sign
    (215); each has its small letter 32 places further, so the function
    stays within the model. *)
Definition char_lower (c : ascii) : ascii :=
  let n := nat_of_ascii c in
  if (Nat.leb 65 n && Nat.leb n 90)
     || (Nat.leb 192 n && Nat.leb n 222 && negb (Nat.eqb n 215))
  then ascii_of_nat (n + 32) else c.

Fixpoint str_lower (s : string) : string :=
  match s with
  | EmptyString => EmptyString
  | String c s' => String (char_lower c) (str_lower s')
  end.

Fixpoint str_rev (s : string) : string :=
  match s with
  | EmptyString => EmptyString
  | String c s' => str_rev s' +:+ String c EmptyString
  end.

(** [s.endswith(suffix)], and [s.endswith((a, b, ...))] for a tuple. *)
Definition endswith (s suffix : string) : bool :=
  String.prefix (str_rev suffix) (str_rev s).

Definition endswith_any (s : string) (suffixes : list string) : bool :=
  existsb (endswith s) suffixes.

(** The file-system calls of the zip branch: [tempfile.mkdtemp()],
    [zipfile.ZipFile(path).extractall(directory)], [os.walk(directory)]
    (each entry a directory, its sub-directories and its files) and
    [os.path.join]. What they do depends on the platform and on the archive,
    so they are taken as given. *)
Record FileLibrary : Type := {
  mkdtemp : M (gmap string node) string;
  extractall : string -> string -> M (gmap string node) unit;
  walk : string -> gmap string node -> list (string * list string * list string);
  path_join : string -> string -> string
}.

(** The two nested loops over the result of [os.walk]. *)
Definition collect_excel_files (os : FileLibrary)
    (entries : list (string * list string * list string)) : list string :=
  flat_map (fun entry =>
              let root := fst (fst entry) in
              let files := snd entry in
              map (path_join os root)
                (List.filter (fun file => endswith_any (str_lower file) [".xls"; ".xlsx"])
                   files))
    entries.

Definition get_excel_files_from_input (os : FileLibrary) (input_path : string)
  : M (gmap string node) (list string) :=
  if endswith (str_lower input_path) ".zip" then
    temp_dir <- mkdtemp os ;;
    extractall os input_path temp_dir ;;;
    fun fs =>
      let excel_files := collect_excel_files os (walk os temp_dir fs) in
      (Ok excel_files, fs)
  else
    fun fs =>
      if isfile fs input_path
         && endswith_any (str_lower input_path) [".xls"; ".xlsx"]
      then (Ok [input_path], fs)
      else (Raise (FileNotFoundError
                     ("Input path " +:+ input_path +:+
                      " is not a valid Excel file or zip archive.")), fs).

(** The choice of the input path in the main block: [argv] is [sys.argv]
    and [base_path] is [app_config.get('input_path')]. *)
Definition main_input_path (fs : gmap string node) (argv : list string)
    (base_path : option string) : result string :=
  if Nat.ltb 1 (length argv) then
    match nth_error argv 1 with
    | Some input_path =>
        if negb (isfile fs input_path)
        then Raise (FileNotFoundError
                      ("Input file '" +:+ input_path +:+ "' does not exist."))
        else Ok input_path
    | None => Raise IndexError
    end
  else
    if negb (truthy_opt base_path)
    then Raise (Exception
                  "No input_path specified in config and no command-line argument given.")
    else find_input_file fs (format_opt base_path).

End LoadExcelInput.

(** ** Properties of the input resolution *)

Section InputFacts.

Import LoadExcel.
Import LoadExcelInput.

(** X10. A path that [find_input_file] returns is one of the two
    candidates, is a regular file, and no candidate that is a regular file
    is strictly newer than it; and the call fails only when neither
    candidate is a regular file. *)
Theorem find_input_file_returns_a_file (fs : gmap string node) (base_path : string) :
  let zip_path := base_path +:+ ".zip" in
  let xlsx_path := base_path +:+ ".xlsx" in
  (forall path,
      find_input_file fs base_path = Ok path ->
      path ∈ [zip_path; xlsx_path] /\ isfile fs path = true /\
      forall other mtime other_mtime,
        other ∈ [zip_path; xlsx_path] -> isfile fs other = true ->
        getmtime fs path = Ok mtime -> getmtime fs other = Ok other_mtime ->
        (other_mtime <= mtime)%Q) /\
  (forall e,
      find_input_file fs base_path = Raise e ->
      isfile fs zip_path = false /\ isfile fs xlsx_path = false).
Proof.
  intros zip_path xlsx_path. unfold find_input_file. fold zip_path xlsx_path.
  destruct (isfile fs zip_path) eqn:Hz, (isfile fs xlsx_path) eqn:Hx; cbn [andb].
  - destruct (isfile_getmtime fs zip_path Hz) as [tz Htz].
    destruct (isfile_getmtime fs xlsx_path Hx) as [tx Htx].
    rewrite Htz, Htx. split; [| by destruct (mtime_gt tz tx)].
    intros path Hpath.
    destruct (mtime_gt tz tx) eqn:Hgt; injection Hpath as <-;
      (split; [set_solver |]); (split; [done |]);
      intros other mtime other_mtime Hother _ Hm Hom;
      repeat rewrite elem_of_cons in Hother; rewrite elem_of_nil in Hother;
      destruct Hother as [-> | [-> | []]];
      (assert (mtime = tz \/ mtime = tx) as Hmtime
         by (rewrite ?Htz, ?Htx in Hm; injection Hm; auto));
      first [ replace other_mtime with mtime by congruence; apply Qle_refl
            | replace mtime with tz by congruence;
              replace other_mtime with tx by congruence;
              apply mtime_gt_lt in Hgt; by apply Qlt_le_weak
            | replace mtime with tx by congruence;
              replace other_mtime with tz by congruence;
              by apply mtime_gt_le in Hgt ].
  - split; [| done]. intros path [= <-]. split; [set_solver |]. split; [done |].
    intros other mtime other_mtime Hother Hfile Hm Hom.
    repeat rewrite elem_of_cons in Hother. rewrite elem_of_nil in Hother.
    destruct Hother as [-> | [-> | []]]; [| congruence].
    rewrite Hm in Hom. injection Hom as <-. apply Qle_refl.
  - split; [| done]. intros path [= <-]. split; [set_solver |]. split; [done |].
    intros other mtime other_mtime Hother Hfile Hm Hom.
    repeat rewrite elem_of_cons in Hother. rewrite elem_of_nil in Hother.
    destruct Hother as [-> | [-> | []]]; [congruence |].
    rewrite Hm in Hom. injection Hom as <-. apply Qle_refl.
  - split; [done |]. by intros e _.
Qed.

Lemma find_input_file_returns_a_file_witness :
  isfile (sample_fs 200%Q 100%Q) "export.zip" = true.
Proof.
  apply (proj1 (find_input_file_returns_a_file (sample_fs 200%Q 100%Q) "export")
           "export.zip" eq_refl).
Defined.

(** *** Suffixes *)

(** [s] ends with [suffix]. *)
Definition has_suffix (s suffix : string) : Prop :=
  exists stem, s = stem +:+ suffix.

Lemma str_rev_app (a b : string) : str_rev (a +:+ b) = str_rev b +:+ str_rev a.
Proof.
  induction a as [| c a IH]; [by rewrite append_empty_l, append_empty_r |].
  rewrite append_cons. cbn [str_rev]. by rewrite IH, append_assoc.
Qed.

Lemma str_rev_involutive (s : string) : str_rev (str_rev s) = s.
Proof.
  induction s as [| c s IH]; [done |].
  cbn [str_rev]. rewrite str_rev_app, IH. reflexivity.
Qed.

Lemma prefix_spec (p s : string) :
  String.prefix p s = true <-> exists rest, s = p +:+ rest.
Proof.
  split.
  - revert s. induction p as [| a p IH]; intros s; [by exists s |].
    destruct s as [| b s]; [done |].
    rewrite prefix_cons. intros [Hab Hp] % andb_true_iff.
    apply Ascii.eqb_eq in Hab as ->. destruct (IH s Hp) as [rest ->].
    by exists rest.
  - intros [rest ->]. apply prefix_app.
Qed.

Lemma endswith_spec (s suffix : string) :
  endswith s suffix = true <-> has_suffix s suffix.
Proof.
  unfold endswith, has_suffix. rewrite prefix_spec. split.
  - intros [rest Hrev]. exists (str_rev rest).
    apply (f_equal str_rev) in Hrev.
    by rewrite str_rev_involutive, str_rev_app, str_rev_involutive in Hrev.
  - intros [stem ->]. exists (str_rev stem). apply str_rev_app.
Qed.

Lemma str_lower_app (a b : string) :
  str_lower (a +:+ b) = str_lower a +:+ str_lower b.
Proof.
  induction a as [| c a IH]; [done |].
  rewrite append_cons. cbn [str_lower]. by rewrite IH.
Qed.

Lemma endswith_any_excel (s : string) :
  endswith_any s [".xls"; ".xlsx"] = true <->
  has_suffix s ".xls" \/ has_suffix s ".xlsx".
Proof.
  unfold endswith_any. cbn [existsb]. rewrite orb_false_r, orb_true_iff.
  by rewrite !endswith_spec.
Qed.

End InputFacts.

Section ExcelFilesFromInput.

Import LoadExcel.
Import LoadExcelInput.

Context (os : FileLibrary).

Lemma find_input_file_branches (fs : gmap string node) (base_path path : string) :
  find_input_file fs base_path = Ok path ->
  (path = base_path +:+ ".zip" /\ isfile fs path = true) \/
  (path = base_path +:+ ".xlsx" /\ isfile fs path = true).
Proof.
  unfold find_input_file.
  destruct (isfile fs (base_path +:+ ".zip")) eqn:Hz,
           (isfile fs (base_path +:+ ".xlsx")) eqn:Hx; cbn [andb].
  - destruct (getmtime fs (base_path +:+ ".zip")) as [tz |]; [| discriminate].
    destruct (getmtime fs (base_path +:+ ".xlsx")) as [tx |]; [| discriminate].
    destruct (mtime_gt tz tx); intros [= <-]; auto.
  - intros [= <-]; auto.
  - intros [= <-]; auto.
  - discriminate.
Qed.

(** X11. A path whose lower-case form does not end in [.zip] is accepted
    exactly when it is a regular file and its lower-case form ends in [.xls]
    or [.xlsx]; the result is then the path alone. Anything else (a missing
    path, a directory, another extension) fails with a file-not-found
    error. The file system is left as it is in both cases. *)
Theorem get_excel_files_from_plain_path (input_path : string) (fs : gmap string node) :
  ~ has_suffix (str_lower input_path) ".zip" ->
  let excel :=
    has_suffix (str_lower input_path) ".xls" \/
    has_suffix (str_lower input_path) ".xlsx" in
  (isfile fs input_path = true /\ excel ->
   get_excel_files_from_input os input_path fs = (Ok [input_path], fs)) /\
  (isfile fs input_path = false \/ ~ excel ->
   get_excel_files_from_input os input_path fs =
   (Raise (FileNotFoundError
             ("Input path " +:+ input_path +:+
              " is not a valid Excel file or zip archive.")), fs)).
Proof.
  intros Hzip excel. unfold get_excel_files_from_input.
  destruct (endswith (str_lower input_path) ".zip") eqn:Hends.
  { by apply endswith_spec in Hends. }
  split.
  - intros [Hfile Hexcel]. apply endswith_any_excel in Hexcel.
    by rewrite Hfile, Hexcel.
  - intros [Hfile | Hexcel]; [by rewrite Hfile |].
    destruct (endswith_any (str_lower input_path) [".xls"; ".xlsx"]) eqn:Hany.
    + by apply endswith_any_excel in Hany.
    + by rewrite andb_false_r.
Qed.

Lemma elem_of_collect_excel_files (entries : list (string * list string * list string))
    (path : string) :
  path ∈ collect_excel_files os entries <->
  exists root dirs files file,
    (root, dirs, files) ∈ entries /\ file ∈ files /\
    (has_suffix (str_lower file) ".xls" \/ has_suffix (str_lower file) ".xlsx") /\
    path = path_join os root file.
Proof.
  unfold collect_excel_files. rewrite list_elem_of_In, in_flat_map. split.
  - intros ([[root dirs] files] & Hentry & Hpath). cbn [fst snd] in Hpath.
    apply in_map_iff in Hpath as (file & <- & Hfile).
    apply filter_In in Hfile as [Hfile Hexcel].
    exists root, dirs, files, file.
    rewrite !list_elem_of_In. by rewrite <- endswith_any_excel.
  - intros (root & dirs & files & file & Hentry & Hfile & Hexcel & ->).
    exists (root, dirs, files). rewrite <- list_elem_of_In. split; [done |].
    cbn [fst snd]. apply in_map. apply filter_In.
    rewrite <- list_elem_of_In. by rewrite endswith_any_excel.
Qed.

(** X12. A path whose lower-case form ends in [.zip] is treated as an
    archive without asking whether it is a file. When the temporary
    directory is made and the archive is extracted, the result holds
    exactly the files found under the directory whose lower-case names end
    in [.xls] or [.xlsx], each joined to the directory it is in; an archive
    without such a file gives the empty list and no error. *)
Theorem get_excel_files_from_zip (input_path temp_dir : string)
    (fs fs1 fs2 : gmap string node) :
  has_suffix (str_lower input_path) ".zip" ->
  mkdtemp os fs = (Ok temp_dir, fs1) ->
  extractall os input_path temp_dir fs1 = (Ok tt, fs2) ->
  exists excel_files,
    get_excel_files_from_input os input_path fs = (Ok excel_files, fs2) /\
    (forall path,
        path ∈ excel_files <->
        exists root dirs files file,
          (root, dirs, files) ∈ walk os temp_dir fs2 /\ file ∈ files /\
          (has_suffix (str_lower file) ".xls" \/
           has_suffix (str_lower file) ".xlsx") /\
          path = path_join os root file) /\
    ((forall root dirs files file,
         (root, dirs, files) ∈ walk os temp_dir fs2 -> file ∈ files ->
         ~ has_suffix (str_lower file) ".xls" /\
         ~ has_suffix (str_lower file) ".xlsx") ->
     excel_files = []).
Proof.
  intros Hzip % endswith_spec Htemp Hextract.
  exists (collect_excel_files os (walk os temp_dir fs2)).
  split; [| split].
  - unfold get_excel_files_from_input. rewrite Hzip.
    unfold bind. by rewrite Htemp, Hextract.
  - apply elem_of_collect_excel_files.
  - intros Hnone.
    destruct (collect_excel_files os (walk os temp_dir fs2)) as [| path rest] eqn:E;
      [done |].
    assert (Hin : path ∈ collect_excel_files os (walk os temp_dir fs2))
      by (rewrite E; set_solver).
    apply elem_of_collect_excel_files in Hin
      as (root & dirs & files & file & Hentry & Hfile & Hexcel & _).
    destruct (Hnone root dirs files file Hentry Hfile) as [Hxls Hxlsx].
    by destruct Hexcel.
Qed.

Lemma not_zip_suffix (stem : string) : ~ has_suffix (stem +:+ ".xlsx") ".zip".
Proof.
  intros Hsuffix % endswith_spec. unfold endswith in Hsuffix.
  rewrite str_rev_app in Hsuffix. by vm_compute in Hsuffix.
Qed.

(** X13. The input path the main block settles on is a regular file. When
    it comes from [find_input_file] (no argument on the command line), the
    next step never rejects it: it is either an archive name, or the
    spreadsheet itself, returned as the only workbook. A path given on the
    command line has no such guarantee. *)
Theorem main_input_path_is_a_file (fs : gmap string node) (argv : list string)
    (base_path : option string) (input_path : string) :
  main_input_path fs argv base_path = Ok input_path ->
  isfile fs input_path = true /\
  (length argv <= 1 ->
   has_suffix (str_lower input_path) ".zip" \/
   get_excel_files_from_input os input_path fs = (Ok [input_path], fs)).
Proof.
  unfold main_input_path.
  destruct (Nat.ltb_spec 1 (length argv)) as [Hargs | Hnone].
  - destruct (nth_error argv 1) as [path |]; [| discriminate].
    destruct (isfile fs path) eqn:Hfile; [| discriminate].
    intros [= <-]. split; [done | lia].
  - destruct (negb (truthy_opt base_path)); [discriminate |].
    set (base := format_opt base_path). intros Hfound.
    destruct (find_input_file_branches fs base input_path Hfound)
      as [[-> Hfile] | [-> Hfile]].
    + split; [done |]. intros _. left.
      rewrite str_lower_app. by exists (str_lower base).
    + split; [done |]. intros _. right.
      apply get_excel_files_from_plain_path.
      * rewrite str_lower_app. apply not_zip_suffix.
      * split; [done |]. right. rewrite str_lower_app. by exists (str_lower base).
Qed.

End ExcelFilesFromInput.

(** *** A sample archive *)

Section SampleArchive.

Import LoadExcel.
Import LoadExcelInput.

(** An archive library over a fixed extracted tree. *)
Definition sample_os : FileLibrary := {|
  mkdtemp := fun fs => (Ok "/tmp/extract", fs);
  extractall := fun _ _ fs => (Ok tt, fs);
  walk := fun _ _ =>
    [("/tmp/extract", ["old"], ["a.xlsx"; "notes.txt"]);
     ("/tmp/extract/old", [], ["b.XLS"])];
  path_join := fun root file => root +:+ "/" +:+ file
|}.

Lemma get_excel_files_from_plain_path_witness :
  get_excel_files_from_input sample_os "export.xlsx" (sample_fs 200%Q 100%Q)
  = (Ok ["export.xlsx"], sample_fs 200%Q 100%Q).
Proof.
  apply (get_excel_files_from_plain_path sample_os "export.xlsx"
           (sample_fs 200%Q 100%Q)).
  - intros H % endswith_spec. vm_compute in H. discriminate.
  - split; [reflexivity |]. right. by exists "export".
Defined.

Lemma get_excel_files_from_zip_witness :
  exists excel_files,
    get_excel_files_from_input sample_os "Export.ZIP" ∅ = (Ok excel_files, ∅) /\
    "/tmp/extract/old/b.XLS" ∈ excel_files.
Proof.
  destruct (get_excel_files_from_zip sample_os "Export.ZIP" "/tmp/extract" ∅ ∅ ∅
              ltac:(by exists "export") eq_refl eq_refl)
    as (excel_files & Hrun & Hmember & _).
  exists excel_files. split; [exact Hrun |].
  apply Hmember. exists "/tmp/extract/old", [], ["b.XLS"], "b.XLS".
  split; [cbn; set_solver |]. split; [set_solver |].
  split; [left; by exists "b" | reflexivity].
Defined.

Lemma main_input_path_is_a_file_witness :
  isfile (sample_fs 100%Q 200%Q) "export.xlsx" = true /\
  get_excel_files_from_input sample_os "export.xlsx" (sample_fs 100%Q 200%Q)
  = (Ok ["export.xlsx"], sample_fs 100%Q 200%Q).
Proof.
  destruct (main_input_path_is_a_file sample_os (sample_fs 100%Q 200%Q)
              ["load_excel.py"] (Some "export") "export.xlsx" eq_refl)
    as [Hfile Hnext].
  split; [exact Hfile |].
  destruct (Hnext ltac:(cbn; lia)) as [Hzip | Hrun]; [| exact Hrun].
  apply endswith_spec in Hzip. vm_compute in Hzip. discriminate.
Defined.

End SampleArchive.

(** * extract_from_idmc.py: the token, the export job, the beacon and main *)

Module ExportRun.

Import ExtractIdmc.

(** [requests.exceptions.InvalidHeader], which [requests] raises before it
    sends anything when a header value is neither a [str] nor [None];
    carried as an [Exception] with the name of its class. *)
Definition InvalidHeader : exn := Exception "InvalidHeader".

(** A value of a response used as a header value. [requests] leaves out a
    header whose value is [None] and sends the request without it; it
    refuses a value of any other type that is not a [str]. A [str] goes into
    the request; the ones [requests] refuses for their text (leading white
    space, a line break) are refused by the transport. *)
Definition header_value (x : json) : result (option string) :=
  match x with
  | JStr s => Ok (Some s)
  | JNull => Ok None
  | _ => Raise InvalidHeader
  end.

(** The header [name], when it has a value. *)
Definition header_of (name : string) (value : option string)
  : list (string * string) :=
  match value with
  | Some v => [(name, v)]
  | None => []
  end.

(** What the beacon reads from the machine: [time.time()] as the bits of
    a float, [os.path.basename(__file__)] and [socket.gethostname()], which
    may raise. *)
Record Host : Type := {
  clock : Z;
  script : string;
  gethostname : result string
}.

(** The parsed [config.ini]: sections of keys; [None] when the file does
    not exist. Interpolation of values is not modelled. *)
Definition Config : Type := option (gmap string (gmap string string)).

Section Run.

(** [py_str x] is [str(x)], the text an f-string puts for a value. *)
Context {Net : Type} (transport : Transport Net) (disk : Disk Net)
  (py_str : json -> string).

(** A [str] session id prints as itself in the cookie and [None] as its
    name; any other value is refused as the value of the second header. *)
Definition generate_jwt_token (pod : string) (session_id : json)
  : M (World Net) json :=
  let url := "https://" +:+ pod +:+
             ".informaticacloud.com/identity-service/api/v1/jwt/Token?client_id=" +:+
             CLIENT_ID +:+ "&nonce=" +:+ NONCE in
  ids <- lift (header_value session_id) ;;
  let headers := ("cookie", "USER_SESSION=" +:+ format_opt ids) ::
                 header_of "IDS-SESSION-ID" ids in
  response <- send transport (mkRequest POST url headers None) ;;
  lift (raise_for_status response) ;;;
  data <- lift (json_body response) ;;
  jwt_token <- lift (py_get data "jwt_token") ;;
  if negb (truthy jwt_token)
  then raise (ExceptionAbout "Failed to get JWT token: " data)
  else ret jwt_token.

Definition start_export_job (pod : string) (org_id jwt_token : json)
    (knowledge_query export_filename : string) : M (World Net) (json * json) :=
  let url := "https://idmc-api." +:+ pod +:+
             ".informaticacloud.com/data360/search/export/v1/assets?knowledgeQuery=" +:+
             knowledge_query +:+ "&segments=all&fileName=" +:+ export_filename +:+
             "&summaryViews=all" in
  let payload := JObj (<["from" := JInt 0]> (<["size" := JInt 10000]> ∅)) in
  org <- lift (header_value org_id) ;;
  let headers := header_of "X-INFA-ORG-ID" org ++
                 [("Content-Type", "application/json");
                  ("Authorization", "Bearer " +:+ py_str jwt_token)] in
  response <- send transport (mkRequest POST url headers (Some payload)) ;;
  lift (raise_for_status response) ;;;
  data <- lift (json_body response) ;;
  job_id <- lift (py_get data "jobId") ;;
  tracking_uri <- lift (py_get data "trackingURI") ;;
  output_uri <- lift (py_get data "outputURI") ;;
  if negb (truthy job_id && truthy tracking_uri && truthy output_uri)
  then raise (ExceptionAbout "Export job start failed, incomplete response: " data)
  else ret (job_id, output_uri).

(** The request of the beacon. *)
Definition beacon_request (host : Host) (machine annotation : string) : Request :=
  let this_headers :=
    [("Content-Type", "application/json");
     ("X-Auth-Key",
      "b74a58ca9f170e49f65b7c56df0f452b0861c8c870864599b2fbc656ff758f5d")] in
  let logs :=
    [JObj (<["timestamp" := JFloat (clock host)]>
           (<["function" := JStr ("[" +:+ script host +:+ "][main]")]>
           (<["execution_time" := JStr "N/A"]>
           (<["annotation" := JStr annotation]>
           (<["machine" := JStr machine]> ∅)))))] in
  mkRequest POST "https://infa-lic-worker.tim-qin-yujue.workers.dev" this_headers
    (Some (JObj (<["logs" := JArr logs]> ∅))).

(** The whole body is inside [try: ... except: pass]. *)
Definition infaLog (host : Host) (annotation : string) : M (World Net) unit :=
  fun w =>
    match gethostname host with
    | Raise _ => (Ok tt, w)
    | Ok machine =>
        let (_, w') := send transport (beacon_request host machine annotation) w in
        (Ok tt, w')
    end.

(** [all([username, password, pod, query, export_filename])] *)
Definition all_truthy (xs : list (option string)) : bool := forallb truthy_opt xs.

(** [main], with [fuel] for the polling loop: [None] is returned when the
    bound is reached with the job still running. [login] returns only true
    values and [start_export_job] has sent [org_id] as a header value, so
    that [org_id] is a [str] when the polling starts; the other branch is
    never reached. *)
Definition main (fuel : nat) (host : Host) (config : Config)
  : M (World Net) (option unit) :=
  match config with
  | None => raise (FileNotFoundError "Config file 'config.ini' not found.")
  | Some sections =>
      match sections !! "idmc" with
      | None => raise (Exception "Missing [idmc] section in config.ini")
      | Some idmc_cfg =>
          let username := idmc_cfg !! "username" in
          let password := idmc_cfg !! "password" in
          let pod := idmc_cfg !! "pod" in
          let query := idmc_cfg !! "query" in
          let export_filename := idmc_cfg !! "export_filename" in
          infaLog host
            ("Org: " +:+ format_opt username +:+ ", Pod: " +:+ format_opt pod +:+
             ", Version: 20250613, Query: " +:+ format_opt query +:+
             ", Export: " +:+ format_opt export_filename) ;;;
          if negb (all_truthy [username; password; pod; query; export_filename])
          then raise (Exception
                        "Config [idmc] must include username, password, pod, query, and export_filename")
          else
            let pod := format_opt pod in
            let export_filename := format_opt export_filename in
            ids <- login transport pod (format_opt username) (format_opt password) ;;
            let session_id := fst ids in
            let org_id := snd ids in
            jwt_token <- generate_jwt_token pod session_id ;;
            job <- start_export_job pod org_id jwt_token (format_opt query)
                     export_filename ;;
            let job_id := fst job in
            let output_uri := snd job in
            match org_id with
            | JStr org =>
                finished <- check_job_status transport fuel pod org
                              (py_str jwt_token) (py_str job_id)
                              default_poll_interval ;;
                match finished with
                | None => ret None
                | Some _ =>
                    download_export_file transport disk pod org (py_str jwt_token)
                      (py_str output_uri) export_filename ;;;
                    ret (Some tt)
                end
            | _ => raise InvalidHeader
            end
      end
  end.

End Run.

End ExportRun.

(** ** Properties of the export client *)

Section ClientFacts.

Import ExtractIdmc.
Import ExportRun.

Context {Net : Type} (transport : Transport Net) (py_str : json -> string).

Definition token_request (pod session_id : string) : Request :=
  mkRequest POST
    ("https://" +:+ pod +:+
     ".informaticacloud.com/identity-service/api/v1/jwt/Token?client_id=" +:+
     CLIENT_ID +:+ "&nonce=" +:+ NONCE)
    [("cookie", "USER_SESSION=" +:+ session_id); ("IDS-SESSION-ID", session_id)]
    None.

Definition export_request (pod org_id : string) (jwt_token : json)
    (knowledge_query export_filename : string) : Request :=
  mkRequest POST
    ("https://idmc-api." +:+ pod +:+
     ".informaticacloud.com/data360/search/export/v1/assets?knowledgeQuery=" +:+
     knowledge_query +:+ "&segments=all&fileName=" +:+ export_filename +:+
     "&summaryViews=all")
    [("X-INFA-ORG-ID", org_id);
     ("Content-Type", "application/json");
     ("Authorization", "Bearer " +:+ py_str jwt_token)]
    (Some (JObj (<["from" := JInt 0]> (<["size" := JInt 10000]> ∅)))).

(** The world after one request has been answered. *)
Definition answered (w : World Net) (net : Net) (request : Request) : World Net :=
  mkWorld net (events w ++ [Sent request]).

(** The same requests for [None] in place of the id: the header that
    would carry it is left out. *)
Definition anonymous_token_request (pod : string) : Request :=
  mkRequest POST
    ("https://" +:+ pod +:+
     ".informaticacloud.com/identity-service/api/v1/jwt/Token?client_id=" +:+
     CLIENT_ID +:+ "&nonce=" +:+ NONCE)
    [("cookie", "USER_SESSION=None")]
    None.

Definition anonymous_export_request (pod : string) (jwt_token : json)
    (knowledge_query export_filename : string) : Request :=
  mkRequest POST
    ("https://idmc-api." +:+ pod +:+
     ".informaticacloud.com/data360/search/export/v1/assets?knowledgeQuery=" +:+
     knowledge_query +:+ "&segments=all&fileName=" +:+ export_filename +:+
     "&summaryViews=all")
    [("Content-Type", "application/json");
     ("Authorization", "Bearer " +:+ py_str jwt_token)]
    (Some (JObj (<["from" := JInt 0]> (<["size" := JInt 10000]> ∅)))).

Lemma header_value_refused (x : json) :
  x <> JNull -> (forall s, x <> JStr s) -> header_value x = Raise InvalidHeader.
Proof. intros Hnull Hstr. destruct x; try done. by destruct (Hstr s). Qed.

Lemma header_value_true (x : json) :
  truthy x = true -> header_value x = Raise InvalidHeader \/ exists s, x = JStr s.
Proof. destruct x; try discriminate; eauto. Qed.

(** The token call on a request that was answered. *)
Lemma generate_jwt_token_run (pod : string) (session_id : json) (ids : option string)
    (w : World Net) (response : Response) (net : Net) (fields : gmap string json) :
  let request :=
    mkRequest POST
      ("https://" +:+ pod +:+
       ".informaticacloud.com/identity-service/api/v1/jwt/Token?client_id=" +:+
       CLIENT_ID +:+ "&nonce=" +:+ NONCE)
      (("cookie", "USER_SESSION=" +:+ format_opt ids) ::
       header_of "IDS-SESSION-ID" ids) None in
  header_value session_id = Ok ids ->
  transport request (network w) = (Ok response, net) ->
  raise_for_status response = Ok tt ->
  json_body response = Ok (JObj fields) ->
  generate_jwt_token transport pod session_id w =
  (if truthy (field fields "jwt_token")
   then Ok (field fields "jwt_token")
   else Raise (ExceptionAbout "Failed to get JWT token: " (JObj fields)),
   answered w net request).
Proof.
  intros request Hheader Hsend Hstatus Hbody.
  unfold generate_jwt_token. cbn zeta.
  unfold bind at 1. unfold lift at 1. rewrite Hheader.
  fold request.
  unfold bind at 1. unfold send at 1. rewrite Hsend.
  unfold bind at 1. unfold lift at 1. rewrite Hstatus.
  unfold bind at 1. unfold lift at 1. rewrite Hbody.
  unfold bind, lift, py_get, field, answered.
  destruct (fields !! "jwt_token") as [token |]; cbn [truthy negb]; [| done].
  by destruct (truthy token).
Qed.

(** X14. [generate_jwt_token] refuses a session id that is neither a
    [str] nor [None] before anything is sent. For a [str], and for [None],
    where the request goes out without the [IDS-SESSION-ID] header: on a
    response with a success status and a JSON object as body it fails
    exactly when [jwt_token] is absent or has a false value, and otherwise
    returns that value. *)
Theorem generate_jwt_token_needs_token (pod : string) (w : World Net) :
  let answers (request : Request) (session_id : json) : Prop :=
    forall response net fields,
      transport request (network w) = (Ok response, net) ->
      raise_for_status response = Ok tt ->
      json_body response = Ok (JObj fields) ->
      generate_jwt_token transport pod session_id w =
      (if truthy (field fields "jwt_token")
       then Ok (field fields "jwt_token")
       else Raise (ExceptionAbout "Failed to get JWT token: " (JObj fields)),
       answered w net request) in
  (forall session_id,
      session_id <> JNull -> (forall s, session_id <> JStr s) ->
      generate_jwt_token transport pod session_id w = (Raise InvalidHeader, w)) /\
  (forall s, answers (token_request pod s) (JStr s)) /\
  answers (anonymous_token_request pod) JNull.
Proof.
  intros answers. split; [| split].
  - intros session_id Hnull Hstr. unfold generate_jwt_token, bind, lift.
    by rewrite (header_value_refused session_id Hnull Hstr).
  - intros s response net fields.
    by apply (generate_jwt_token_run pod (JStr s) (Some s)).
  - intros response net fields.
    by apply (generate_jwt_token_run pod JNull None).
Qed.

(** The export call on a request that was answered. *)
Lemma start_export_job_run (pod : string) (org_id jwt_token : json)
    (org : option string) (knowledge_query export_filename : string)
    (w : World Net) (response : Response) (net : Net) (fields : gmap string json) :
  let request :=
    mkRequest POST
      ("https://idmc-api." +:+ pod +:+
       ".informaticacloud.com/data360/search/export/v1/assets?knowledgeQuery=" +:+
       knowledge_query +:+ "&segments=all&fileName=" +:+ export_filename +:+
       "&summaryViews=all")
      (header_of "X-INFA-ORG-ID" org ++
       [("Content-Type", "application/json");
        ("Authorization", "Bearer " +:+ py_str jwt_token)])
      (Some (JObj (<["from" := JInt 0]> (<["size" := JInt 10000]> ∅)))) in
  header_value org_id = Ok org ->
  transport request (network w) = (Ok response, net) ->
  raise_for_status response = Ok tt ->
  json_body response = Ok (JObj fields) ->
  start_export_job transport py_str pod org_id jwt_token knowledge_query
    export_filename w =
  (if truthy (field fields "jobId") && truthy (field fields "trackingURI")
      && truthy (field fields "outputURI")
   then Ok (field fields "jobId", field fields "outputURI")
   else Raise (ExceptionAbout "Export job start failed, incomplete response: "
                 (JObj fields)),
   answered w net request).
Proof.
  intros request Hheader Hsend Hstatus Hbody.
  unfold start_export_job. cbn zeta.
  unfold bind at 1. unfold lift at 1. rewrite Hheader.
  fold request.
  unfold bind at 1. unfold send at 1. rewrite Hsend.
  unfold bind at 1. unfold lift at 1. rewrite Hstatus.
  unfold bind at 1. unfold lift at 1. rewrite Hbody.
  unfold bind, lift, py_get, field, answered.
  destruct (fields !! "jobId") as [job |],
           (fields !! "trackingURI") as [tracking |],
           (fields !! "outputURI") as [output |];
    cbn [truthy negb andb]; rewrite ?andb_false_r; cbn [negb]; try done;
    by destruct (truthy job && truthy tracking && truthy output).
Qed.

(** X15. [start_export_job] refuses an organisation id that is neither a
    [str] nor [None] before anything is sent. For a [str], and for [None],
    where the request goes out without the [X-INFA-ORG-ID] header: on a
    response with a success status and a JSON object as body it fails as
    soon as one of [jobId], [trackingURI] and [outputURI] is absent or has a
    false value (the tracking URI too, which it does not use), and otherwise
    returns the job id and the output URI. *)
Theorem start_export_job_needs_all_fields (pod : string) (jwt_token : json)
    (knowledge_query export_filename : string) (w : World Net) :
  let answers (request : Request) (org_id : json) : Prop :=
    forall response net fields,
      transport request (network w) = (Ok response, net) ->
      raise_for_status response = Ok tt ->
      json_body response = Ok (JObj fields) ->
      start_export_job transport py_str pod org_id jwt_token knowledge_query
        export_filename w =
      (if truthy (field fields "jobId") && truthy (field fields "trackingURI")
          && truthy (field fields "outputURI")
       then Ok (field fields "jobId", field fields "outputURI")
       else Raise (ExceptionAbout "Export job start failed, incomplete response: "
                     (JObj fields)),
       answered w net request) in
  (forall org_id,
      org_id <> JNull -> (forall s, org_id <> JStr s) ->
      start_export_job transport py_str pod org_id jwt_token knowledge_query
        export_filename w = (Raise InvalidHeader, w)) /\
  (forall org,
      answers (export_request pod org jwt_token knowledge_query export_filename)
        (JStr org)) /\
  answers (anonymous_export_request pod jwt_token knowledge_query export_filename)
    JNull.
Proof.
  intros answers. split; [| split].
  - intros org_id Hnull Hstr. unfold start_export_job, bind, lift.
    by rewrite (header_value_refused org_id Hnull Hstr).
  - intros org response net fields.
    by apply (start_export_job_run pod (JStr org) jwt_token (Some org)).
  - intros response net fields.
    by apply (start_export_job_run pod JNull jwt_token None).
Qed.

End ClientFacts.

Section ClientErrors.

Import ExtractIdmc.
Import ExportRun.

Context {Net : Type} (transport : Transport Net) (disk : Disk Net)
  (py_str : json -> string).

Lemma raise_for_status_error (response : Response) :
  (400 <= status_code response < 600)%Z ->
  raise_for_status response = Raise (HTTPError (status_code response)).
Proof.
  intros [Hlow Hhigh]. unfold raise_for_status.
  apply Z.leb_le in Hlow. apply Z.ltb_lt in Hhigh. by rewrite Hlow, Hhigh.
Qed.

Lemma send_http_error {A} (request : Request) (k : Response -> M (World Net) A)
    (w : World Net) (response : Response) (net : Net) :
  transport request (network w) = (Ok response, net) ->
  (400 <= status_code response < 600)%Z ->
  (response <- send transport request ;;
   lift (raise_for_status response) ;;; k response) w =
  (Raise (HTTPError (status_code response)), answered w net request).
Proof.
  intros Hsend Hstatus. unfold bind at 1. unfold send at 1. rewrite Hsend.
  unfold bind, lift. by rewrite (raise_for_status_error response Hstatus).
Qed.

(** X16. Every call of the client stops at a response whose status is
    between 400 and 599: it raises an HTTP error with that status, the
    body of the response is not read, and nothing else happens: the poll
    does not sleep and the download opens no file. *)
Theorem http_error_stops_the_call (w : World Net) (response : Response) (net : Net)
    (pod username password session_id org_id jwt_token job_id output_uri
       knowledge_query export_filename : string) (token : json)
    (poll_interval : Z) (fuel : nat) :
  (400 <= status_code response < 600)%Z ->
  let failed (A : Type) (request : Request) : result A * World Net :=
    (Raise (HTTPError (status_code response)), answered w net request) in
  (transport (login_request pod username password) (network w) = (Ok response, net) ->
   login transport pod username password w
   = failed (json * json)%type (login_request pod username password)) /\
  (transport (token_request pod session_id) (network w) = (Ok response, net) ->
   generate_jwt_token transport pod (JStr session_id) w
   = failed json (token_request pod session_id)) /\
  (transport (export_request py_str pod org_id token knowledge_query export_filename)
     (network w) = (Ok response, net) ->
   start_export_job transport py_str pod (JStr org_id) token knowledge_query
     export_filename w
   = failed (json * json)%type
       (export_request py_str pod org_id token knowledge_query export_filename)) /\
  (transport (poll_request pod org_id jwt_token job_id) (network w)
     = (Ok response, net) ->
   check_job_status transport (S fuel) pod org_id jwt_token job_id poll_interval w
   = failed (option unit) (poll_request pod org_id jwt_token job_id)) /\
  (transport (download_request pod org_id jwt_token output_uri) (network w)
     = (Ok response, net) ->
   download_export_file transport disk pod org_id jwt_token output_uri
     export_filename w
   = failed string (download_request pod org_id jwt_token output_uri)).
Proof.
  intros Hstatus failed. unfold failed. repeat split; intros Hsend.
  - unfold login. by apply send_http_error.
  - unfold generate_jwt_token. cbn zeta.
    unfold bind at 1. unfold lift at 1. cbn [header_value format_opt header_of].
    by apply send_http_error.
  - unfold start_export_job. cbn zeta.
    unfold bind at 1. unfold lift at 1. cbn [header_value header_of app].
    by apply send_http_error.
  - cbn [check_job_status]. by apply send_http_error.
  - unfold download_export_file. by apply send_http_error.
Qed.

End ClientErrors.

Section MorePolling.

Import ExtractIdmc.

Context (pod org_id jwt_token job_id : string) (poll_interval : Z).



End MorePolling.


Section MoreDownload.

Import ExtractIdmc.

Context {Net : Type} (transport : Transport Net) (disk : Disk Net).


End MoreDownload.


(** ** Properties of the beacon and of main *)

Section MainFacts.

Import ExtractIdmc.
Import ExportRun.

Context {Net : Type} (transport : Transport Net) (disk : Disk Net)
  (py_str : json -> string).

(** The requests the beacon adds to the events: one when the host name
    can be read, none otherwise. *)
Definition beacon_events (host : Host) (annotation : string) : list event :=
  match gethostname host with
  | Ok machine => [Sent (beacon_request host machine annotation)]
  | Raise _ => []
  end.

Lemma infaLog_run (host : Host) (annotation : string) (w : World Net) :
  fst (infaLog transport host annotation w) = Ok tt /\
  events (snd (infaLog transport host annotation w))
  = events w ++ beacon_events host annotation.
Proof.
  unfold infaLog, beacon_events.
  destruct (gethostname host) as [machine | e].
  - unfold send.
    destruct (transport (beacon_request host machine annotation) (network w))
      as [r net].
    by split.
  - split; [done |]. by rewrite app_nil_r.
Qed.

(** X19. The beacon never raises, whatever the network does and whatever
    status comes back: it returns normally after at most one request, a
    POST of the annotation to the worker address. *)
Theorem infaLog_never_raises (host : Host) (annotation : string) (w : World Net) :
  fst (infaLog transport host annotation w) = Ok tt /\
  (events (snd (infaLog transport host annotation w)) = events w \/
   exists machine,
     gethostname host = Ok machine /\
     events (snd (infaLog transport host annotation w))
     = events w ++ [Sent (beacon_request host machine annotation)]).
Proof.
  destruct (infaLog_run host annotation w) as [Hok Hevents].
  split; [exact Hok |]. rewrite Hevents. unfold beacon_events.
  destruct (gethostname host) as [machine | e].
  - right. by exists machine.
  - left. by rewrite app_nil_r.
Qed.

(** The annotation main gives the beacon. *)
Definition main_annotation (username pod query export_filename : option string)
  : string :=
  "Org: " +:+ format_opt username +:+ ", Pod: " +:+ format_opt pod +:+
  ", Version: 20250613, Query: " +:+ format_opt query +:+
  ", Export: " +:+ format_opt export_filename.

Definition incomplete_config : exn :=
  Exception
    "Config [idmc] must include username, password, pod, query, and export_filename".


End MainFacts.

Section MainOrder.

Import ExtractIdmc.
Import ExportRun.

Context {Net : Type} (transport : Transport Net) (disk : Disk Net)
  (py_str : json -> string).

Lemma send_then_quiet {A} (request : Request) (k : Response -> M (World Net) A)
    (w w' : World Net) (r : result A) :
  (forall response w1, snd (k response w1) = w1) ->
  (response <- send transport request ;; k response) w = (r, w') ->
  events w' = events w ++ [Sent request].
Proof.
  intros Hk. unfold bind, send.
  destruct (transport request (network w)) as [[response | e] net].
  - intros H. pose proof (Hk response (mkWorld net (events w ++ [Sent request])))
      as Hquiet.
    rewrite H in Hquiet. cbn [snd] in Hquiet. by subst w'.
  - by intros [= <- <-].
Qed.

Ltac quiet :=
  intros; unfold bind, lift, raise, ret;
  repeat match goal with
         | |- context [match ?x with _ => _ end] => destruct x
         end;
  reflexivity.

Lemma login_events (pod username password : string) (w w' : World Net)
    (r : result (json * json)) :
  login transport pod username password w = (r, w') ->
  events w' = events w ++ [Sent (login_request pod username password)].
Proof. unfold login. apply send_then_quiet. quiet. Qed.

(** What [login] returns is true in both parts. *)
Lemma login_true (pod username password : string) (session_id org_id : json)
    (w w' : World Net) :
  login transport pod username password w = (Ok (session_id, org_id), w') ->
  truthy session_id = true /\ truthy org_id = true.
Proof.
  unfold login.
  intros (response & w1 & _ & Hrest) % bind_Ok.
  apply bind_Ok in Hrest as ([] & w2 & _ & Hrest).
  apply bind_Ok in Hrest as (data & w3 & _ & Hrest).
  apply bind_Ok in Hrest as (sid & w4 & _ & Hrest).
  apply bind_Ok in Hrest as (oid & w5 & _ & Hrest).
  destruct (truthy sid) eqn:Hsid, (truthy oid) eqn:Hoid; try discriminate.
  unfold ret in Hrest. injection Hrest as <- <- _. by split.
Qed.

Lemma generate_jwt_token_events (pod : string) (session_id jwt_token : json)
    (w w' : World Net) :
  truthy session_id = true ->
  generate_jwt_token transport pod session_id w = (Ok jwt_token, w') ->
  exists s, session_id = JStr s /\
            events w' = events w ++ [Sent (token_request pod s)].
Proof.
  intros Htrue. unfold generate_jwt_token. cbn zeta.
  intros (ids & w1 & Hheader & Hrest) % bind_Ok.
  unfold lift in Hheader. injection Hheader as Hheader <-.
  destruct session_id as [| | | | s | |]; try discriminate.
  injection Hheader as <-. exists s. split; [done |].
  revert Hrest. apply send_then_quiet. quiet.
Qed.

Lemma start_export_job_events (pod : string) (org_id jwt_token : json)
    (knowledge_query export_filename : string) (job : json * json)
    (w w' : World Net) :
  truthy org_id = true ->
  start_export_job transport py_str pod org_id jwt_token knowledge_query
    export_filename w = (Ok job, w') ->
  exists org, org_id = JStr org /\
    events w' = events w ++
      [Sent (export_request py_str pod org jwt_token knowledge_query export_filename)].
Proof.
  intros Htrue. unfold start_export_job. cbn zeta.
  intros (value & w1 & Hheader & Hrest) % bind_Ok.
  unfold lift in Hheader. injection Hheader as Hheader <-.
  destruct org_id as [| | | | org | |]; try discriminate.
  injection Hheader as <-. exists org. split; [done |].
  revert Hrest. apply send_then_quiet. quiet.
Qed.

(** When the loop returns, it has polled once more than it has slept. *)
Lemma check_job_status_finished (fuel : nat)
    (pod org_id jwt_token job_id : string) (poll_interval : Z) (w w' : World Net) :
  check_job_status transport fuel pod org_id jwt_token job_id poll_interval w
    = (Ok (Some tt), w') ->
  exists n, n < fuel /\
    events w' = events w ++ waited pod org_id jwt_token job_id poll_interval n ++
                [Sent (poll_request pod org_id jwt_token job_id)].
Proof.
  revert w. induction fuel as [| fuel IH]; intros w; [discriminate |].
  cbn [check_job_status]. fold (poll_request pod org_id jwt_token job_id).
  intros (response & w1 & Hsend & Hrest) % bind_Ok.
  assert (Hsent : events w1 = events w ++
                    [Sent (poll_request pod org_id jwt_token job_id)]).
  { unfold send in Hsend. destruct (transport _ _) as [r net].
    by injection Hsend as _ <-. }
  apply bind_Ok in Hrest as ([] & w2 & Hstatus & Hrest).
  unfold lift in Hstatus. injection Hstatus as _ <-.
  apply bind_Ok in Hrest as (data & w3 & Hdata & Hrest).
  unfold lift in Hdata. injection Hdata as _ <-.
  apply bind_Ok in Hrest as (status & w4 & Hget & Hrest).
  unfold lift in Hget. injection Hget as _ <-.
  destruct (read_status status).
  - injection Hrest as <-. exists 0. split; [lia |]. by rewrite Hsent.
  - discriminate.
  - apply bind_Ok in Hrest as ([] & w5 & Hsleep & Hrest).
    unfold sleep in Hsleep.
    destruct (poll_interval <? 0)%Z; [discriminate |]. injection Hsleep as <-.
    apply IH in Hrest as (n & Hn & Hevents). exists (S n). split; [lia |].
    rewrite Hevents. cbn [events]. rewrite Hsent, waited_succ.
    by rewrite <- !app_assoc.
Qed.

Lemma write_chunks_events (filename : string) (cs : list (list Byte.byte))
    (w w' : World Net) :
  for_each (fun _ chunk => write disk filename chunk) cs tt w = (Ok tt, w') ->
  events w' = events w ++ map (Wrote filename) cs.
Proof.
  revert w. induction cs as [| chunk cs IH]; intros w.
  - cbn. intros [= <-]. by rewrite app_nil_r.
  - cbn [for_each map]. intros ([] & w1 & Hwrite & Hrest) % bind_Ok.
    apply IH in Hrest. rewrite Hrest.
    unfold write in Hwrite.
    destruct (disk_write disk filename chunk (network w)) as [[[] | e] net];
      [| discriminate].
    injection Hwrite as <-. cbn [events]. by rewrite <- app_assoc.
Qed.

Lemma download_export_file_events
    (pod org_id jwt_token output_uri export_filename_base filename : string)
    (w w' : World Net) :
  download_export_file transport disk pod org_id jwt_token output_uri
    export_filename_base w = (Ok filename, w') ->
  exists response,
    events w' = events w ++
      Sent (download_request pod org_id jwt_token output_uri) ::
      Opened filename :: map (Wrote filename) (chunks response).
Proof.
  unfold download_export_file.
  fold (download_request pod org_id jwt_token output_uri).
  intros (response & w1 & Hsend & Hrest) % bind_Ok.
  apply bind_Ok in Hrest as ([] & w2 & Hstatus & Hrest).
  unfold lift in Hstatus. injection Hstatus as _ <-.
  apply bind_Ok in Hrest as ([] & w3 & Hopen & Hrest).
  apply bind_Ok in Hrest as ([] & w4 & Hwrite & Hrest).
  unfold ret in Hrest. injection Hrest as <- <-.
  apply write_chunks_events in Hwrite.
  unfold open_wb in Hopen.
  destruct (disk_open disk _ (network w1)) as [[[] | e] net1]; [| discriminate].
  injection Hopen as <-. cbn [events] in Hwrite.
  unfold send in Hsend.
  destruct (transport (download_request pod org_id jwt_token output_uri) (network w))
    as [r net].
  injection Hsend as _ <-. cbn [events] in Hwrite.
  exists response. rewrite Hwrite. by rewrite <- !app_assoc.
Qed.

(** X21. A run of main that completes has gone through the stages in
    order, once each: after the beacon, the login, the token request and
    the export request, then the polls with a sleep of ten seconds after
    each but the last, then the download request, and only then the file is
    opened and its chunks are written. When the login raises, main raises
    the same exception and nothing follows the login request. *)
Theorem main_runs_the_stages_in_order (fuel : nat) (host : Host)
    (sections : gmap string (gmap string string)) (idmc_cfg : gmap string string)
    (username password pod query export_filename : string) (w : World Net) :
  sections !! "idmc" = Some idmc_cfg ->
  idmc_cfg !! "username" = Some username ->
  idmc_cfg !! "password" = Some password ->
  idmc_cfg !! "pod" = Some pod ->
  idmc_cfg !! "query" = Some query ->
  idmc_cfg !! "export_filename" = Some export_filename ->
  let beacon :=
    beacon_events host
      (main_annotation (Some username) (Some pod) (Some query)
         (Some export_filename)) in
  (forall w',
      main transport disk py_str fuel host (Some sections) w = (Ok (Some tt), w') ->
      exists session_id org_id jwt_token job_id output_uri n filename response,
        n < fuel /\
        events w' = events w ++ beacon ++
          [Sent (login_request pod username password);
           Sent (token_request pod session_id);
           Sent (export_request py_str pod org_id jwt_token query export_filename)] ++
          waited pod org_id (py_str jwt_token) (py_str job_id) 10 n ++
          [Sent (poll_request pod org_id (py_str jwt_token) (py_str job_id));
           Sent (download_request pod org_id (py_str jwt_token) (py_str output_uri));
           Opened filename] ++
          map (Wrote filename) (chunks response)) /\
  (forall w0 e w1,
      infaLog transport host
        (main_annotation (Some username) (Some pod) (Some query)
           (Some export_filename)) w = (Ok tt, w0) ->
      all_truthy [Some username; Some password; Some pod; Some query;
                  Some export_filename] = true ->
      login transport pod username password w0 = (Raise e, w1) ->
      main transport disk py_str fuel host (Some sections) w = (Raise e, w1) /\
      events w1 = events w ++ beacon ++ [Sent (login_request pod username password)]).
Proof.
  intros Hsection Hu Hp Hpod Hq He beacon.
  assert (Hmain : main transport disk py_str fuel host (Some sections) w =
    (infaLog transport host
       (main_annotation (Some username) (Some pod) (Some query)
          (Some export_filename)) ;;;
     if negb (all_truthy [Some username; Some password; Some pod; Some query;
                          Some export_filename])
     then raise incomplete_config
     else
       ids <- login transport pod username password ;;
       jwt_token <- generate_jwt_token transport pod (fst ids) ;;
       job <- start_export_job transport py_str pod (snd ids) jwt_token query
                export_filename ;;
       match snd ids with
       | JStr org =>
           finished <- check_job_status transport fuel pod org (py_str jwt_token)
                         (py_str (fst job)) default_poll_interval ;;
           match finished with
           | None => ret None
           | Some _ =>
               download_export_file transport disk pod org (py_str jwt_token)
                 (py_str (snd job)) export_filename ;;;
               ret (Some tt)
           end
       | _ => raise InvalidHeader
       end) w).
  { unfold main. by rewrite Hsection, Hu, Hp, Hpod, Hq, He. }
  rewrite Hmain. clear Hmain. split.
  - intros w' Hrun.
    apply bind_Ok in Hrun as ([] & w0 & Hbeacon & Hrun).
    pose proof (proj2 (infaLog_run transport host
                         (main_annotation (Some username) (Some pod) (Some query)
                            (Some export_filename)) w)) as Hb.
    rewrite Hbeacon in Hb. cbn [snd] in Hb. fold beacon in Hb.
    destruct (negb (all_truthy _)); [discriminate |].
    apply bind_Ok in Hrun as ([session_id org_id] & w1 & Hlogin & Hrun).
    destruct (login_true _ _ _ _ _ _ _ Hlogin) as [Hsession Horg].
    apply login_events in Hlogin. cbn [fst snd] in Hrun.
    apply bind_Ok in Hrun as (jwt_token & w2 & Htoken & Hrun).
    apply generate_jwt_token_events in Htoken as (s & -> & Htoken); [| done].
    apply bind_Ok in Hrun as ([job_id output_uri] & w3 & Hjob & Hrun).
    apply start_export_job_events in Hjob as (org & -> & Hjob); [| done].
    cbn [fst snd] in Hrun.
    apply bind_Ok in Hrun as (finished & w5 & Hpoll & Hrun).
    destruct finished as [[] |]; [| discriminate].
    apply check_job_status_finished in Hpoll as (n & Hn & Hpoll).
    apply bind_Ok in Hrun as (filename & w6 & Hdownload & [= <-]).
    apply download_export_file_events in Hdownload as (response & Hdownload).
    exists s, org, jwt_token, job_id, output_uri, n, filename, response.
    split; [done |].
    rewrite Hdownload, Hpoll, Hjob, Htoken, Hlogin, Hb.
    unfold default_poll_interval. by rewrite <- !app_assoc.
  - intros w0 e w1 Hbeacon Hall Hlogin.
    pose proof (proj2 (infaLog_run transport host
                         (main_annotation (Some username) (Some pod) (Some query)
                            (Some export_filename)) w)) as Hb.
    rewrite Hbeacon in Hb. cbn [snd] in Hb. fold beacon in Hb.
    split.
    + unfold bind at 1. rewrite Hbeacon, Hall. cbn [negb].
      unfold bind at 1. by rewrite Hlogin.
    + apply login_events in Hlogin. by rewrite Hlogin, Hb, <- app_assoc.
Qed.

End MainOrder.

(** *** A sample export *)

Section SampleExport.

Import ExtractIdmc.
Import ExportRun.

Definition sample_host : Host := {|
  clock := 0x41D9000000000000;
  script := "extract_from_idmc.py";
  gethostname := Ok "workstation"
|}.

Definition sample_idmc : gmap string string :=
  <["username" := "ada"]> (<["password" := "secret"]> (<["pod" := "dm-us"]>
  (<["query" := "core.DataSet"]> (<["export_filename" := "Export"]> ∅)))).

Definition sample_sections : gmap string (gmap string string) :=
  <["idmc" := sample_idmc]> ∅.

(** [str] on the values of the sample: a [str] prints as itself. *)
Definition sample_str (x : json) : string :=
  match x with
  | JStr s => s
  | _ => "?"
  end.

Definition json_response (fields : gmap string json) : Response :=
  mkResponse 200 (Ok (JObj fields)) (fun _ => None) [].

(** The answers of the services to one run, in the order of the requests. *)
Definition sample_answers : list Response :=
  [mkResponse 204 (Raise JSONDecodeError) (fun _ => None) [];
   json_response (<["sessionId" := JStr "S1"]> (<["currentOrgId" := JStr "O1"]> ∅));
   json_response (<["jwt_token" := JStr "J1"]> ∅);
   json_response (<["jobId" := JStr "42"]> (<["trackingURI" := JStr "/track/42"]>
                  (<["outputURI" := JStr "/out/42"]> ∅)));
   status_response (JStr "RUNNING");
   status_response (JStr "COMPLETED");
   export_response (Some attachment_header)].

Definition sample_export : result (option unit) * World (list Response) :=
  main scripted accepting_disk sample_str 5 sample_host (Some sample_sections)
    (mkWorld sample_answers []).

Lemma generate_jwt_token_needs_token_witness :
  let token : gmap string json := <["jwt_token" := JStr "J1"]> ∅ in
  generate_jwt_token (constant_transport (json_response ∅)) "dm-us" (JStr "S1")
    (mkWorld tt [])
  = (Raise (ExceptionAbout "Failed to get JWT token: " (JObj ∅)),
     mkWorld tt [Sent (token_request "dm-us" "S1")]) /\
  generate_jwt_token (constant_transport (json_response token)) "dm-us" JNull
    (mkWorld tt [])
  = (Ok (JStr "J1"), mkWorld tt [Sent (anonymous_token_request "dm-us")]) /\
  generate_jwt_token (constant_transport (json_response token)) "dm-us" (JInt 5)
    (mkWorld tt [])
  = (Raise InvalidHeader, mkWorld tt []).
Proof.
  intros token. split; [| split].
  - rewrite (proj1 (proj2 (generate_jwt_token_needs_token
                             (constant_transport (json_response ∅)) "dm-us"
                             (mkWorld tt [])))
               "S1" (json_response ∅) tt ∅ eq_refl eq_refl eq_refl).
    reflexivity.
  - rewrite (proj2 (proj2 (generate_jwt_token_needs_token
                             (constant_transport (json_response token)) "dm-us"
                             (mkWorld tt [])))
               (json_response token) tt token eq_refl eq_refl eq_refl).
    reflexivity.
  - apply (proj1 (generate_jwt_token_needs_token
                    (constant_transport (json_response token)) "dm-us"
                    (mkWorld tt [])));
      discriminate.
Defined.

Lemma start_export_job_needs_all_fields_witness :
  let fields : gmap string json :=
    <["jobId" := JStr "42"]> (<["outputURI" := JStr "/out/42"]> ∅) in
  let complete : gmap string json := <["trackingURI" := JStr "/track/42"]> fields in
  fst (start_export_job (constant_transport (json_response fields)) sample_str
         "dm-us" (JStr "O1") (JStr "J1") "core.DataSet" "Export" (mkWorld tt []))
  = Raise (ExceptionAbout "Export job start failed, incomplete response: "
             (JObj fields)) /\
  start_export_job (constant_transport (json_response complete)) sample_str
    "dm-us" JNull (JStr "J1") "core.DataSet" "Export" (mkWorld tt [])
  = (Ok (JStr "42", JStr "/out/42"),
     mkWorld tt [Sent (anonymous_export_request sample_str "dm-us" (JStr "J1")
                         "core.DataSet" "Export")]) /\
  start_export_job (constant_transport (json_response complete)) sample_str
    "dm-us" (JBool true) (JStr "J1") "core.DataSet" "Export" (mkWorld tt [])
  = (Raise InvalidHeader, mkWorld tt []).
Proof.
  intros fields complete. split; [| split].
  - rewrite (proj1 (proj2 (start_export_job_needs_all_fields
                             (constant_transport (json_response fields)) sample_str
                             "dm-us" (JStr "J1") "core.DataSet" "Export"
                             (mkWorld tt [])))
               "O1" (json_response fields) tt fields eq_refl eq_refl eq_refl).
    reflexivity.
  - rewrite (proj2 (proj2 (start_export_job_needs_all_fields
                             (constant_transport (json_response complete)) sample_str
                             "dm-us" (JStr "J1") "core.DataSet" "Export"
                             (mkWorld tt [])))
               (json_response complete) tt complete eq_refl eq_refl eq_refl).
    reflexivity.
  - apply (proj1 (start_export_job_needs_all_fields
                    (constant_transport (json_response complete)) sample_str
                    "dm-us" (JStr "J1") "core.DataSet" "Export" (mkWorld tt [])));
      discriminate.
Defined.

Lemma http_error_stops_the_call_witness :
  let forbidden := mkResponse 403 (Raise JSONDecodeError) (fun _ => None) [] in
  download_export_file (constant_transport forbidden) accepting_disk "dm-us" "O1"
    "J1" "/out/42" "Export" (mkWorld tt [])
  = (Raise (HTTPError 403),
     mkWorld tt [Sent (download_request "dm-us" "O1" "J1" "/out/42")]).
Proof.
  intros forbidden.
  apply (http_error_stops_the_call (constant_transport forbidden) accepting_disk
           sample_str
           (mkWorld tt []) forbidden tt "dm-us" "ada" "secret" "S1" "O1" "J1" "42"
           "/out/42" "core.DataSet" "Export" (JStr "J1") 10 0
           ltac:(cbn; lia)).
  reflexivity.
Defined.


Lemma main_runs_the_stages_in_order_witness :
  exists n filename response,
    n < 5 /\
    events (snd sample_export) =
    [] ++ beacon_events sample_host
            (main_annotation (Some "ada") (Some "dm-us") (Some "core.DataSet")
               (Some "Export")) ++
    [Sent (login_request "dm-us" "ada" "secret");
     Sent (token_request "dm-us" "S1");
     Sent (export_request sample_str "dm-us" "O1" (JStr "J1") "core.DataSet" "Export")] ++
    waited "dm-us" "O1" "J1" "42" 10 n ++
    [Sent (poll_request "dm-us" "O1" "J1" "42");
     Sent (download_request "dm-us" "O1" "J1" "/out/42");
     Opened filename] ++
    map (Wrote filename) (chunks response).
Proof.
  destruct (proj1 (main_runs_the_stages_in_order scripted accepting_disk sample_str 5 sample_host
                     sample_sections sample_idmc "ada" "secret" "dm-us"
                     "core.DataSet" "Export" (mkWorld sample_answers [])
                     eq_refl eq_refl eq_refl eq_refl eq_refl eq_refl)
              (snd sample_export) ltac:(vm_compute; reflexivity))
    as (session_id & org_id & jwt_token & job_id & output_uri & n & filename
        & response & Hn & Hevents).
  exists 1, "Export_1.xlsx", (export_response (Some attachment_header)).
  split; [lia | reflexivity].
Defined.

End SampleExport.

(** ** More on table names *)

Section TableNameFacts.

Import LoadExcel.

Definition not_space (c : ascii) : bool := negb (Ascii.eqb c " ").

Lemma isspace_space_to_underscore (c : ascii) :
  isspace c = false -> space_to_underscore c = c.
Proof.
  unfold space_to_underscore. destruct (Ascii.eqb_spec c " ") as [-> | _]; [| done].
  by vm_compute.
Qed.

Lemma str_map_keeps_start (s : string) :
  starts_with_space s = false ->
  starts_with_space (str_map space_to_underscore s) = false.
Proof.
  destruct s as [| c s]; [done |]. cbn. intros Hc.
  by rewrite isspace_space_to_underscore.
Qed.

Lemma str_map_keeps_end (s : string) :
  ends_with_space s = false ->
  ends_with_space (str_map space_to_underscore s) = false.
Proof.
  induction s as [| c s IH]; [done |].
  destruct s as [| d s].
  - cbn. intros Hc. by rewrite isspace_space_to_underscore.
  - intros Hend. apply IH. exact Hend.
Qed.

Lemma str_map_no_space (s : string) :
  str_all not_space (str_map space_to_underscore s) = true.
Proof.
  induction s as [| c s IH]; [done |].
  cbn [str_map str_all]. rewrite IH, andb_true_r.
  unfold space_to_underscore, not_space.
  destruct (Ascii.eqb_spec c " ") as [-> | Hne]; [done |].
  apply negb_true_iff. by apply Ascii.eqb_neq.
Qed.

Lemma lstrip_fixed (s : string) : starts_with_space s = false -> lstrip s = s.
Proof. destruct s as [| c s]; [done |]. cbn. by intros ->. Qed.

Lemma rstrip_fixed (s : string) : ends_with_space s = false -> rstrip s = s.
Proof.
  induction s as [| c s IH]; [done |].
  destruct s as [| d s].
  - cbn. by intros ->.
  - intros Hend. change (rstrip (String c (String d s)))
      with (match rstrip (String d s) with
            | EmptyString => if isspace c then EmptyString else String c EmptyString
            | r => String c r
            end).
    by rewrite (IH Hend).
Qed.

Lemma str_map_fixed (s : string) :
  str_all not_space s = true -> str_map space_to_underscore s = s.
Proof.
  induction s as [| c s IH]; [done |].
  cbn [str_all str_map]. intros [Hc Hs] % andb_true_iff.
  rewrite (IH Hs). unfold space_to_underscore.
  apply negb_true_iff in Hc. by rewrite Hc.
Qed.

(** X22. A table name never contains a space character and never begins
    or ends with white space, and a table name is its own table name:
    normalising twice changes nothing. *)
Theorem table_name_of_is_normal (sheet_name : string) :
  str_all not_space (table_name_of sheet_name) = true /\
  starts_with_space (table_name_of sheet_name) = false /\
  ends_with_space (table_name_of sheet_name) = false /\
  table_name_of (table_name_of sheet_name) = table_name_of sheet_name.
Proof.
  assert (Hform : table_name_of sheet_name
                  = str_map space_to_underscore (strip sheet_name))
    by apply replace_space.
  destruct (lstrip_spec sheet_name) as (lead & _ & _ & Hstart).
  destruct (rstrip_spec (lstrip sheet_name)) as (trail & _ & _ & Hend).
  apply rstrip_keeps_start in Hstart. fold (strip sheet_name) in Hstart, Hend.
  assert (Hno : str_all not_space (table_name_of sheet_name) = true)
    by (rewrite Hform; apply str_map_no_space).
  assert (Hs : starts_with_space (table_name_of sheet_name) = false)
    by (rewrite Hform; by apply str_map_keeps_start).
  assert (He : ends_with_space (table_name_of sheet_name) = false)
    by (rewrite Hform; by apply str_map_keeps_end).
  repeat split; try done.
  unfold table_name_of at 1, strip.
  rewrite (lstrip_fixed _ Hs), (rstrip_fixed _ He), replace_space.
  by apply str_map_fixed.
Qed.

End TableNameFacts.

(** ** Every statement is committed *)

Section Commits.

Import LoadExcel.

Context {DB : Type} (drv : Driver DB) (lib : Library).

(** In [calls], every statement that changes the database is followed at
    once by a commit, and there is no other commit: none at the start, none
    after a query and none after another commit. *)
Fixpoint committed (calls : list call) : bool :=
  match calls with
  | [] => true
  | Commit :: _ => false
  | c :: rest =>
      match kind_of c with
      | OtherCall => committed rest
      | _ =>
          match rest with
          | Commit :: rest' => committed rest'
          | _ => false
          end
      end
  end.

Lemma committed_query (query : string) (rest : list call) :
  kind_of (Execute query) = OtherCall ->
  committed (Execute query :: rest) = committed rest.
Proof. intros Hkind. cbn [committed]. by rewrite Hkind. Qed.

Lemma committed_statement (c : call) (rest : list call) :
  kind_of c <> OtherCall -> committed (c :: Commit :: rest) = committed rest.
Proof.
  intros Hkind. destruct c; cbn [committed]; [| | done];
    by destruct (kind_of _).
Qed.

Lemma committed_app (a b : list call) :
  committed a = true -> committed (a ++ b) = committed b.
Proof.
  revert b. induction a as [a IH] using (induction_ltof1 _ (@length call)).
  unfold ltof in IH. intros b. destruct a as [| c rest]; [done |].
  assert (Hstep : forall rest', rest = Commit :: rest' ->
                    committed rest' = true -> committed (rest' ++ b) = committed b).
  { intros rest' -> Hrest. apply IH; [cbn; lia | exact Hrest]. }
  destruct c; cbn [committed app]; try discriminate;
    (destruct (kind_of _);
     [destruct rest as [| [] rest']; try discriminate; cbn [app];
      by apply Hstep ..
     | intros Hrest; apply IH; [cbn; lia | exact Hrest]]).
Qed.

Lemma committed_sheet (self : DBHandler) (sql_types : gmap string string)
    (table_name : string) (df : DataFrame) (present known : bool) (query : string) :
  kind_of (Execute query) = OtherCall ->
  committed (Execute query ::
             provisioning_calls self sql_types table_name df present known ++
             [ExecuteMany (insert_sql self table_name df) (itertuples df); Commit])
  = true.
Proof.
  intros Hkind. rewrite committed_query by done.
  unfold provisioning_calls.
  destruct present, (drop_table self), (truncate_table self), known; cbn [app];
    repeat (rewrite committed_statement
              by (rewrite ?kind_of_drop, ?kind_of_create, ?kind_of_truncate,
                    ?kind_of_insert; discriminate));
    reflexivity.
Qed.

Lemma for_each_sheet_committed (self : DBHandler) (sql_types : gmap string string)
    (sheets : list (string * DataFrame)) (processed processed' : gset string)
    (w w' : World DB) :
  SQL_TYPE_MAPPING !! db_type self = Some sql_types ->
  for_each (process_sheet drv lib self) sheets processed w = (Ok processed', w') ->
  exists calls, log w' = log w ++ calls /\ committed calls = true.
Proof.
  intros Htypes. revert processed w.
  induction sheets as [| sheet sheets IH]; intros processed w.
  - cbn. intros [= <- <-]. exists []. by rewrite app_nil_r.
  - cbn [for_each]. intros (processed1 & w1 & Hsheet & Hrest) % bind_Ok.
    apply IH in Hrest as (more & Hmore & Hcommitted).
    destruct (process_sheet_calls drv lib self sql_types _ _ _ _ _ Htypes Hsheet)
      as (query & present & _ & Hkind & _ & Hlog).
    eexists. split.
    + rewrite Hmore, Hlog, <- app_assoc. reflexivity.
    + rewrite committed_app; [done |]. by apply committed_sheet.
Qed.

(** X23. In a run that completes, every statement that changes the
    database (drop, create, truncate, insert) is followed at once by a
    commit, before any other call, and these are the only commits: the
    existence queries are not committed, no commit follows a query. *)
Theorem every_statement_is_committed (self : DBHandler)
    (sql_types : gmap string string) (fs : gmap string node)
    (excel_files : list string) (w0 w' : World DB) :
  SQL_TYPE_MAPPING !! db_type self = Some sql_types ->
  process_excel_files drv lib fs excel_files self w0 = (Ok tt, w') ->
  exists calls, log w' = log w0 ++ calls /\ committed calls = true.
Proof.
  intros Htypes. rewrite process_excel_files_as_sheets.
  intros (processed & w1 & Hrun & [= <-]) % bind_Ok.
  apply bind_Ok in Hrun as (processed1 & w2 & Hsheets & Hfinish).
  unfold finish in Hfinish.
  destruct (broken_file fs excel_files); [discriminate |].
  injection Hfinish as _ <-.
  by apply (for_each_sheet_committed self sql_types) in Hsheets.
Qed.

End Commits.

Lemma every_statement_is_committed_witness :
  exists calls,
    LoadExcel.log
      (snd (LoadExcel.process_excel_files accepting_driver plain_library workbook_fs
              ["export.xlsx"] (postgres_handler true false) fresh_world))
    = [] ++ calls /\
    committed calls = true.
Proof.
  apply (every_statement_is_committed accepting_driver plain_library
           (postgres_handler true false) LoadExcel.postgres_types workbook_fs
           ["export.xlsx"] fresh_world
           (snd (LoadExcel.process_excel_files accepting_driver plain_library
                   workbook_fs ["export.xlsx"] (postgres_handler true false)
                   fresh_world))
           eq_refl ltac:(vm_compute; reflexivity)).
Defined.
